(** * IDML news extractor: a shallow embedding of [native_parser.py]

    The development follows the class [IDMLNewsExtractor]: Python text,
    the fragment of the [re] module the extractor relies on, the element
    trees handed over by [xml.etree.ElementTree], and then the methods of
    the class in the order in which they call each other.

    Modelling conventions.
    - A Python [str] is a list of characters ([list ascii]); texts are
      taken in the ASCII range, where [str.isspace], [str.isalpha],
      [str.lower] and the classes [\s], [\w], [\d] of [re] are the ones
      written below.  A byte above 127 is a character that is neither a
      space, a letter nor a digit, and has no case.
    - A Python [float] is an exact rational ([Q]); [float('inf')] is
      written out where it occurs.
    - A [dict] with a fixed set of keys is a record; a key that one code
      path leaves out is an [option] field, [None] meaning "no such key".
    - The [set] of used headline ids is a list tested with membership.
    - An exception escaping a method is a value of [outcome]. *)

From Stdlib Require Import Ascii String Bool Arith PeanoNat ZArith QArith Lia Sorted List.
Import ListNotations.

Set Implicit Arguments.
Set Warnings "-register-all".
Close Scope Q_scope.

(* ================================================================= *)
(** ** Python text *)

Module Str.

Definition str := list ascii.

Definition py (s : string) : str := list_ascii_of_string s.

(** The newline character as a text. *)
Definition NL : str := ["010"%char].

Definition code (c : ascii) : nat := nat_of_ascii c.

Definition in_range (lo hi c : ascii) : bool :=
  (code lo <=? code c) && (code c <=? code hi).

Definition isupper (c : ascii) : bool := in_range "A" "Z" c.
Definition islower (c : ascii) : bool := in_range "a" "z" c.
Definition isalpha (c : ascii) : bool := isupper c || islower c.
Definition isdigit (c : ascii) : bool := in_range "0" "9" c.

(** [str.isspace] below 128: TAB..CR, FS..US and the blank. *)
Definition isspace (c : ascii) : bool :=
  ((9 <=? code c) && (code c <=? 13)) || ((28 <=? code c) && (code c <=? 32)).

(** [\w]: letters, digits and the underscore. *)
Definition isword (c : ascii) : bool :=
  isalpha c || isdigit c || Ascii.eqb c "_".

Definition lower_char (c : ascii) : ascii :=
  if isupper c then ascii_of_nat (code c + 32) else c.

Definition upper_char (c : ascii) : ascii :=
  if islower c then ascii_of_nat (code c - 32) else c.

Definition lower (s : str) : str := map lower_char s.

Fixpoint eqb (a b : str) : bool :=
  match a, b with
  | [], [] => true
  | x :: a', y :: b' => Ascii.eqb x y && eqb a' b'
  | _, _ => false
  end.

Fixpoint lstrip (s : str) : str :=
  match s with
  | [] => []
  | c :: s' => if isspace c then lstrip s' else s
  end.

Definition rstrip (s : str) : str := rev (lstrip (rev s)).

(** [s.strip()] *)
Definition strip (s : str) : str := rstrip (lstrip s).

(** [s.startswith(p)] *)
Fixpoint startswith (p s : str) : bool :=
  match p, s with
  | [], _ => true
  | x :: p', y :: s' => Ascii.eqb x y && startswith p' s'
  | _ :: _, [] => false
  end.

(** [p in s] *)
Fixpoint contains (p s : str) : bool :=
  startswith p s ||
  match s with
  | [] => false
  | _ :: s' => contains p s'
  end.

(** [sep.join(parts)] *)
Fixpoint join (sep : str) (parts : list str) : str :=
  match parts with
  | [] => []
  | [p] => p
  | p :: rest => p ++ sep ++ join sep rest
  end.

(** [s[:n]] and [s[n:]] *)
Definition upto (n : nat) (s : str) : str := firstn n s.
Definition from (n : nat) (s : str) : str := skipn n s.

(** [s.split(c)[0]] for a one-character separator. *)
Fixpoint split_head (c : ascii) (s : str) : str :=
  match s with
  | [] => []
  | x :: s' => if Ascii.eqb x c then [] else x :: split_head c s'
  end.

(** Membership in a list of texts, and the duplicate-free list that
    stands for [set(...)]. *)
Definition mem (x : str) (l : list str) : bool := existsb (eqb x) l.

Fixpoint dedup (l : list str) : list str :=
  match l with
  | [] => []
  | x :: l' => if mem x l' then dedup l' else x :: dedup l'
  end.

(** [a.intersection(b)] and [a - b] on such lists. *)
Definition inter (a b : list str) : list str := filter (fun x => mem x b) a.
Definition diff (a b : list str) : list str := filter (fun x => negb (mem x b)) a.

(** [int(digits)] for a run of decimal digits. *)
Definition digit_val (c : ascii) : N := N.of_nat (code c - 48).

Definition int_of_digits (s : str) : N :=
  fold_left (fun acc c => (10 * acc + digit_val c)%N) s 0%N.

End Str.

Import Str.

(* ================================================================= *)
(** ** The fragment of [re] used by the extractor

    A backtracking matcher in the style of [sre]: alternatives are tried
    left to right, repetition is greedy, and a match is the first one
    the search reaches.  One capturing group is enough for the patterns
    of this program. *)

Module Re.

Inductive regex : Type :=
| Eps
| Chr (p : ascii -> bool)
| Seq (r1 r2 : regex)
| Alt (r1 r2 : regex)
| Star (r : regex)
| Bol
| Eol
| WordB
| Group (r : regex).

(** The position in the subject: offset, the character just before it,
    what is left, and the text of group 1 once it has closed. *)
Record mstate : Type := MState {
  m_pos : nat;
  m_prev : option ascii;
  m_rest : str;
  m_grp : option str
}.

Definition start_state (s : str) : mstate := MState 0 None s None.

Definition word_before (st : mstate) : bool :=
  match m_prev st with Some c => isword c | None => false end.

Definition word_after (st : mstate) : bool :=
  match m_rest st with c :: _ => isword c | [] => false end.

Definition at_boundary (st : mstate) : bool :=
  xorb (word_before st) (word_after st).

(** [$] without MULTILINE: the end, or just before a final newline. *)
Definition at_end (st : mstate) : bool :=
  match m_rest st with
  | [] => true
  | [c] => Ascii.eqb c "010"
  | _ => false
  end.

Fixpoint rmatch (r : regex) (st : mstate) (k : mstate -> option mstate)
  {struct r} : option mstate :=
  match r with
  | Eps => k st
  | Chr p =>
      match m_rest st with
      | c :: tl =>
          if p c then k (MState (S (m_pos st)) (Some c) tl (m_grp st)) else None
      | [] => None
      end
  | Seq r1 r2 => rmatch r1 st (fun st' => rmatch r2 st' k)
  | Alt r1 r2 =>
      match rmatch r1 st k with
      | Some res => Some res
      | None => rmatch r2 st k
      end
  | Star r' =>
      (fix loop (n : nat) (st0 : mstate) {struct n} : option mstate :=
         match n with
         | O => k st0
         | S n' =>
             match rmatch r' st0
                     (fun st' => if m_pos st0 <? m_pos st' then loop n' st' else None) with
             | Some res => Some res
             | None => k st0
             end
         end) (length (m_rest st)) st
  | Bol => if m_pos st =? 0 then k st else None
  | Eol => if at_end st then k st else None
  | WordB => if at_boundary st then k st else None
  | Group r' =>
      rmatch r' st
        (fun st' =>
           k (MState (m_pos st') (m_prev st') (m_rest st')
                     (Some (firstn (m_pos st' - m_pos st) (m_rest st)))))
  end.

(** The loop of the repetition, by itself. *)
Definition star_loop (r' : regex) (k : mstate -> option mstate)
  : nat -> mstate -> option mstate :=
  fix loop (n : nat) (st0 : mstate) {struct n} : option mstate :=
    match n with
    | O => k st0
    | S n' =>
        match rmatch r' st0
                (fun st' => if m_pos st0 <? m_pos st' then loop n' st' else None) with
        | Some res => Some res
        | None => k st0
        end
    end.

(** Derived forms. *)
Definition plus (r : regex) : regex := Seq r (Star r).
Definition opt (r : regex) : regex := Alt r Eps.

Fixpoint seqs (rs : list regex) : regex :=
  match rs with
  | [] => Eps
  | [r] => r
  | r :: rs' => Seq r (seqs rs')
  end.

Fixpoint alts (rs : list regex) : regex :=
  match rs with
  | [] => Chr (fun _ => false)
  | [r] => r
  | r :: rs' => Alt r (alts rs')
  end.

Fixpoint times (n : nat) (r : regex) : regex :=
  match n with
  | O => Eps
  | S n' => Seq r (times n' r)
  end.

(** Character classes; [ic] is the IGNORECASE flag. *)
Definition fold_case (ic : bool) (p : ascii -> bool) (c : ascii) : bool :=
  p c || (ic && (p (lower_char c) || p (upper_char c))).

Definition lit (ic : bool) (x : ascii) : regex := Chr (fold_case ic (Ascii.eqb x)).
Definition cls (ic : bool) (p : ascii -> bool) : regex := Chr (fold_case ic p).

(** A literal text, and what [re.escape] yields for it. *)
Definition lits (ic : bool) (s : str) : regex := seqs (map (lit ic) s).
Definition escape (ic : bool) (s : str) : regex := lits ic s.

Definition AZ (ic : bool) : regex := cls ic isupper.
Definition az (ic : bool) : regex := cls ic islower.
Definition Aza (ic : bool) : regex := cls ic isalpha.
Definition digit : regex := Chr isdigit.
Definition space : regex := Chr isspace.
(** [.] without DOTALL *)
Definition dot : regex := Chr (fun c => negb (Ascii.eqb c "010")).

Definition advance (st : mstate) (c : ascii) (tl : str) : mstate :=
  MState (S (m_pos st)) (Some c) tl None.

(** [re.match(r, s)] *)
Definition re_match (r : regex) (s : str) : option mstate :=
  rmatch r (start_state s) Some.

(** [re.search(r, s)]: start offset and final state of the leftmost match. *)
Fixpoint search_from (r : regex) (pos : nat) (prev : option ascii) (rest : str)
  : option (nat * mstate) :=
  match rmatch r (MState pos prev rest None) Some with
  | Some st' => Some (pos, st')
  | None =>
      match rest with
      | [] => None
      | c :: tl => search_from r (S pos) (Some c) tl
      end
  end.

Definition re_search (r : regex) (s : str) : option (nat * mstate) :=
  search_from r 0 None s.

(** The scan shared by [re.findall] and [re.sub]: the successive
    non-overlapping matches, left to right.  [scan] yields the pieces of
    the subject in order, each tagged [true] when it is a match.  No
    pattern of the extractor matches the empty text; after such a match
    the scan steps over one character. *)
Fixpoint scan (fuel : nat) (r : regex) (st : mstate) : list (bool * str) :=
  match fuel with
  | O => []
  | S fuel' =>
      match rmatch r (MState (m_pos st) (m_prev st) (m_rest st) None) Some with
      | Some st' =>
          let matched := firstn (m_pos st' - m_pos st) (m_rest st) in
          if m_pos st <? m_pos st' then
            (true, matched) :: scan fuel' r st'
          else
            match m_rest st with
            | [] => [(true, [])]
            | c :: tl => (true, []) :: (false, [c]) :: scan fuel' r (advance st c tl)
            end
      | None =>
          match m_rest st with
          | [] => []
          | c :: tl => (false, [c]) :: scan fuel' r (advance st c tl)
          end
      end
  end.

Definition pieces (r : regex) (s : str) : list (bool * str) :=
  scan (S (length s)) r (start_state s).

(** [re.findall(r, s)] for a pattern without capturing group. *)
Definition re_findall (r : regex) (s : str) : list str :=
  map snd (filter fst (pieces r s)).

(** [re.sub(r, '', s)] *)
Definition re_sub_empty (r : regex) (s : str) : str :=
  concat (map snd (filter (fun p => negb (fst p)) (pieces r s))).

(** Truth value of a match object. *)
Definition matches (r : regex) (s : str) : bool :=
  match re_match r s with Some _ => true | None => false end.

End Re.

Import Re.

(* ================================================================= *)
(** ** Element trees

    [ET.fromstring] is library code: a story file is given by what
    [fromstring] makes of its bytes, a [ParseError] or the root element. *)

Module ET.

Inductive Element : Type :=
| Elem (tag : str) (attrib : list (str * str)) (text : option str)
       (children : list Element).

Definition tag (e : Element) : str := let 'Elem t _ _ _ := e in t.
Definition attrib (e : Element) : list (str * str) := let 'Elem _ a _ _ := e in a.
Definition text (e : Element) : option str := let 'Elem _ _ t _ := e in t.
Definition children (e : Element) : list Element := let 'Elem _ _ _ c := e in c.

(** [e.get(key, default)] *)
Fixpoint lookup (key : str) (a : list (str * str)) : option str :=
  match a with
  | [] => None
  | (k, v) :: a' => if Str.eqb k key then Some v else lookup key a'
  end.

Definition get (e : Element) (key default : str) : str :=
  match lookup key (attrib e) with Some v => v | None => default end.

(** Every element below [e], in document order. *)
Fixpoint descendants (e : Element) : list Element :=
  match e with
  | Elem _ _ _ cs => flat_map (fun c => c :: descendants c) cs
  end.

(** [e.findall(".//T")], [e.find(".//T")] and [e.findall("T")] *)
Definition findall_below (t : str) (e : Element) : list Element :=
  filter (fun c => Str.eqb (tag c) t) (descendants e).

Definition find_below (t : str) (e : Element) : option Element :=
  hd_error (findall_below t e).

Definition findall_child (t : str) (e : Element) : list Element :=
  filter (fun c => Str.eqb (tag c) t) (children e).

Inductive fromstring_result : Type :=
| Malformed
| WellFormed (root : Element).

End ET.

Import ET.

(** Exceptions that can leave a method of the extractor. *)
Inductive exn : Type := ParseError | AttributeError.

Inductive outcome (A : Type) : Type :=
| Returns (a : A)
| Raises (e : exn).

Arguments Returns {A} a.
Arguments Raises {A} e.

(* ================================================================= *)
(** ** The data model *)

Record ContentElement : Type := {
  text : str;
  font_size : Q;
  font_style : str;
  is_bold : bool;
  is_italic : bool;
  applied_style : str;
  paragraph_style : str;
  paragraph_range_index : nat
}.

Record Story : Type := {
  story_id : str;
  filename : str;
  content_elements : list ContentElement;
  raw_content : str;
  full_text : str;
  paragraphs : list str;
  category : str
}.

Definition set_category (s : Story) (c : str) : Story :=
  {| story_id := story_id s; filename := filename s;
     content_elements := content_elements s; raw_content := raw_content s;
     full_text := full_text s; paragraphs := paragraphs s; category := c |}.

Inductive ArticleType : Type := news_article | standalone_headline.

Record Metadata : Type := {
  body_elements : nat;
  headline_elements : nat;
  has_matching_headline : bool;
  formatting_preserved : option bool;
  html_paragraph_count : option nat
}.

Record Article : Type := {
  a_story_id : str;
  headline_story_id : str;
  a_filename : str;
  headline_filename : str;
  article_type : ArticleType;
  headline : str;
  author : str;
  a_category : str;
  content : str;
  content_html : option str;
  content_formatted : option bool;
  a_full_text : str;
  a_paragraphs : list str;
  metadata : Metadata
}.

(* ================================================================= *)
(** ** Numbers *)

Definition Qltb (a b : Q) : bool := negb (Qle_bool b a).
Definition Qleb (a b : Q) : bool := Qle_bool a b.

Definition Qsum (l : list Q) : Q := fold_left Qplus l (0 # 1)%Q.

Definition Q_of_nat (n : nat) : Q := inject_Z (Z.of_nat n).

(** [float(s)] on a plain decimal literal (sign, digits, optional
    fraction), [None] standing for the [ValueError].  The exponent,
    digit-group, [inf] and [nan] forms are not values of a point size
    and are left out of the model. *)
Definition all_digits (s : str) : bool := forallb isdigit s.

Definition Q_of_decimal (ip fp : str) : Q :=
  Qmake (Z.of_N (int_of_digits (ip ++ fp)))
        (Z.to_pos (10 ^ Z.of_nat (List.length fp))).

Definition parse_unsigned (s : str) : option Q :=
  let ip := split_head "." s in
  let fp := match skipn (List.length ip) s with
            | [] => []
            | _ :: f => f
            end in
  if all_digits ip && all_digits fp && negb (Nat.eqb (List.length ip + List.length fp) 0)
  then Some (Qred (Q_of_decimal ip fp))
  else None.

Definition parse_float (s : str) : option Q :=
  match strip s with
  | "-"%char :: u => option_map Qopp (parse_unsigned u)
  | "+"%char :: u => parse_unsigned u
  | u => parse_unsigned u
  end.

(** The values present in a list of optional values. *)
Fixpoint somes {A : Type} (l : list (option A)) : list A :=
  match l with
  | [] => []
  | Some x :: l' => x :: somes l'
  | None :: l' => somes l'
  end.

(* ================================================================= *)
(** ** Category markers *)

Definition T_ParagraphStyleRange : str := py "ParagraphStyleRange".
Definition T_CharacterStyleRange : str := py "CharacterStyleRange".
Definition T_Content : str := py "Content".
Definition T_Br : str := py "Br".
Definition T_Story : str := py "Story".

(** [^[a-zA-Z0-9\s\-_&,\.]+$] *)
Definition allowed_char (c : ascii) : bool :=
  islower c || isupper c || isdigit c || isspace c ||
  Ascii.eqb c "-" || Ascii.eqb c "_" || Ascii.eqb c "&" ||
  Ascii.eqb c "," || Ascii.eqb c ".".

Definition allowed_pattern : regex := seqs [Bol; plus (Chr allowed_char); Eol].

Definition _is_valid_category (text0 : str) : bool :=
  let text := strip text0 in
  if Nat.eqb (List.length text) 0 then false
  else if negb (existsb isalpha text) then false
  else if negb (matches allowed_pattern text) then false
  else if (List.length text <? 1) || (30 <? List.length text) then false
  else if contains (py "@") text || contains (py "http") (lower text) then false
  else true.

(** The truth value of [content.text]: present and not empty. *)
Definition truthy_text (t : option str) : option str :=
  match t with
  | Some (c :: s) => Some (c :: s)
  | _ => None
  end.

Definition _extract_category_from_story (root : Element) : str :=
  match findall_below T_ParagraphStyleRange root with
  | [para_range] =>
      match findall_below T_CharacterStyleRange para_range with
      | [char_range] =>
          match findall_child T_Content char_range with
          | [content] =>
              match truthy_text (ET.text content) with
              | Some t =>
                  let category_text := strip t in
                  if (0 <? List.length category_text)
                     && (List.length category_text <=? 30)
                     && negb (startswith NL category_text)
                     && _is_valid_category category_text
                  then category_text
                  else []
              | None => []
              end
          | _ => []
          end
      | _ => []
      end
  | _ => []
  end.

Definition _is_category_marker (root : Element) : bool :=
  match findall_below T_ParagraphStyleRange root with
  | [para_range] =>
      match findall_below T_CharacterStyleRange para_range with
      | [char_range] =>
          match findall_child T_Content char_range with
          | [content] =>
              match truthy_text (ET.text content) with
              | Some t =>
                  let text := strip t in
                  (0 <? List.length text) && (List.length text <=? 30)
              | None => false
              end
          | _ => false
          end
      | _ => false
      end
  | _ => false
  end.

(* ================================================================= *)
(** ** The story parser *)

(** [root.find('.//Story').get('Self', '')]: an [AttributeError] when
    there is no [Story] element. *)
Definition story_self (root : Element) : outcome str :=
  match find_below T_Story root with
  | Some e => Returns (get e (py "Self") [])
  | None => Raises AttributeError
  end.

Record parse_state : Type := {
  content_data : list ContentElement;
  paragraphs_acc : list str;
  para_content : list str
}.

Definition font_size_of (char_range : Element) : Q :=
  match parse_float (get char_range (py "PointSize") (py "12")) with
  | Some q => q
  | None => (12 # 1)%Q
  end.

(** One pass of [for child in char_range]. *)
Definition parse_child (para_range char_range : Element) (para_range_index : nat)
  (st : parse_state) (child : Element) : parse_state :=
  match (if Str.eqb (tag child) T_Content then truthy_text (ET.text child) else None) with
  | Some t =>
      let text_content := strip t in
      match text_content with
      | [] => st
      | _ :: _ =>
          let font_style := get char_range (py "FontStyle") (py "Regular") in
          let content_item :=
            {| text := text_content;
               font_size := font_size_of char_range;
               font_style := font_style;
               is_bold := contains (py "Bold") font_style;
               is_italic := contains (py "Italic") font_style;
               applied_style := get char_range (py "AppliedCharacterStyle") [];
               paragraph_style := get para_range (py "AppliedParagraphStyle") [];
               paragraph_range_index := para_range_index |} in
          {| content_data := content_data st ++ [content_item];
             paragraphs_acc := paragraphs_acc st;
             para_content := para_content st ++ [text_content] |}
      end
  | None =>
      if Str.eqb (tag child) T_Br then
        match para_content st with
        | [] => st
        | _ :: _ =>
            {| content_data := content_data st;
               paragraphs_acc := paragraphs_acc st ++ [join (py " ") (para_content st)];
               para_content := [] |}
        end
      else st
  end.

Definition parse_char_range (para_range : Element) (para_range_index : nat)
  (st : parse_state) (char_range : Element) : parse_state :=
  fold_left (parse_child para_range char_range para_range_index)
            (children char_range) st.

(** One pass of [for para_range in para_ranges], the counter included. *)
Definition parse_para_range (acc : nat * parse_state) (para_range : Element)
  : nat * parse_state :=
  let para_range_index := S (fst acc) in
  let st0 := {| content_data := content_data (snd acc);
                paragraphs_acc := paragraphs_acc (snd acc);
                para_content := [] |} in
  let st1 := fold_left (parse_char_range para_range para_range_index)
                       (findall_below T_CharacterStyleRange para_range) st0 in
  let st2 := match para_content st1 with
             | [] => st1
             | _ :: _ =>
                 {| content_data := content_data st1;
                    paragraphs_acc := paragraphs_acc st1 ++ [join (py " ") (para_content st1)];
                    para_content := [] |}
             end in
  (para_range_index, st2).

Definition parse_root (root : Element) : parse_state :=
  snd (fold_left parse_para_range (findall_below T_ParagraphStyleRange root)
                 (0, {| content_data := []; paragraphs_acc := []; para_content := [] |})).

Definition _parse_news_story (xml_content : fromstring_result) (filename : str)
  : outcome (option Story) :=
  match xml_content with
  | Malformed => Returns None            (* except ET.ParseError: return None *)
  | WellFormed root =>
      let category := _extract_category_from_story root in
      let st := parse_root root in
      match content_data st with
      | [] => Returns None
      | _ :: _ =>
          let raw_content := join (py " ") (paragraphs_acc st) in
          let full_text := join NL (paragraphs_acc st) in
          match story_self root with
          | Raises e => Raises e
          | Returns sid =>
              Returns (Some {| story_id := sid;
                               filename := filename;
                               content_elements := content_data st;
                               raw_content := raw_content;
                               full_text := full_text;
                               paragraphs := paragraphs_acc st;
                               category := category |})
          end
      end
  end.

(** The extractable text runs of a story, read off the element tree:
    the stripped, non-empty texts of the [Content] children of the
    character ranges of its paragraph ranges, in document order. *)
Definition run_text (child : Element) : option str :=
  if Str.eqb (tag child) T_Content then
    match truthy_text (ET.text child) with
    | Some t => match strip t with [] => None | c :: s => Some (c :: s) end
    | None => None
    end
  else None.

Definition text_runs (root : Element) : list str :=
  flat_map (fun para_range =>
              flat_map (fun char_range => somes (map run_text (children char_range)))
                       (findall_below T_CharacterStyleRange para_range))
           (findall_below T_ParagraphStyleRange root).

(* ================================================================= *)
(** ** The story classifier *)

(** The bullet (U+2022) that opens the photo-credit pattern lies
    outside ASCII; it is written as the three bytes of its UTF-8 form. *)
Definition bullet : str := ["226"%char; "128"%char; "162"%char].

(** [metadata_patterns], compiled with IGNORECASE. *)
Definition metadata_patterns : list regex :=
  [ seqs [Bol; lits true (py "news"); Eol];
    seqs [Bol; lits true (py "All stories continued on")];
    seqs [Bol; lits true (bullet ++ py "L-R:")];
    seqs [Bol; Star space; Eol];
    seqs [Bol; lits true (py "MONDAY,"); Star dot; times 4 digit; Eol];
    seqs [Bol; digit; opt digit; Eol];
    seqs [Bol; lits true (py "Photo:")];
    seqs [Bol; lits true (py "Continued from")] ].

Definition _is_metadata_content (text0 : str) : bool :=
  let text := strip text0 in
  if List.length text <? 3 then true
  else existsb (fun pattern => matches pattern text) metadata_patterns.

(** [[A-Z][a-z]+] and [[A-Z][a-z]+(?:\s+[A-Z][a-z]+)*] *)
Definition cap_word (ic : bool) : regex := Seq (AZ ic) (plus (az ic)).

Definition cap_words (ic : bool) : regex :=
  Seq (cap_word ic) (Star (Seq (plus space) (cap_word ic))).

(** [cap_words(?:\s+and\s+cap_words)*] *)
Definition cap_words_and (ic : bool) : regex :=
  Seq (cap_words ic)
      (Star (seqs [plus space; lits ic (py "and"); plus space; cap_words ic])).

Definition _looks_like_author_line (text0 : str) : bool :=
  let author_patterns :=
    [ seqs [Bol; cap_words false; lit false ","; plus space; cap_word false];
      seqs [Bol; lits false (py "By"); plus space; cap_word false] ] in
  existsb (fun pattern => matches pattern (strip text0)) author_patterns.

Inductive StoryType : Type := t_headline | t_body_content | t_unknown.

Definition avg_font_size (content_elements : list ContentElement) : Q :=
  (Qsum (map font_size content_elements) / Q_of_nat (List.length content_elements))%Q.

Definition _determine_story_type (story : Story) : StoryType :=
  match content_elements story with
  | [] => t_unknown
  | _ :: _ =>
      let avg := avg_font_size (content_elements story) in
      let has_bold := existsb is_bold (content_elements story) in
      let text_length := List.length (raw_content story) in
      let paragraph_count := List.length (paragraphs story) in
      if Qleb (15 # 1) avg && has_bold && (text_length <? 100) && (paragraph_count <=? 1)
      then t_headline
      else if Qltb avg (15 # 1) && (50 <? text_length) && (1 <? paragraph_count)
      then t_body_content
      else if _looks_like_author_line (raw_content story)
      then t_body_content
      else t_unknown
  end.

(* ================================================================= *)
(** ** The author extractor *)

(** [[A-Z][a-z]+-[A-Z][a-z]+(?:\s+[A-Z][a-z]+)*] *)
Definition hyphen_words : regex :=
  seqs [cap_word false; lit false "-"; cap_word false;
        Star (Seq (plus space) (cap_word false))].

Definition author_patterns : list regex :=
  [ seqs [Bol; Group (cap_words_and false); lit false ","; plus space; cap_word false];
    seqs [Bol; Group (cap_words_and false); Star space; Eol];
    seqs [Bol; Group (Seq hyphen_words
                          (Star (seqs [plus space; lits false (py "and"); plus space;
                                       hyphen_words])))];
    seqs [Bol; lits false (py "By"); plus space; Group (cap_words false)];
    seqs [Bol; Group (cap_words_and false); Star space; lit false ","; Star space;
          plus (Aza false)] ].

(** [match.group(1)] *)
Definition group1 (m : mstate) : str :=
  match m_grp m with Some g => g | None => [] end.

(** [re.sub(r',.*$', '', s)] *)
Definition drop_location (s : str) : str :=
  re_sub_empty (seqs [lit false ","; Star dot; Eol]) s.

(** The [for pattern in author_patterns] loop: the first pattern that
    matches decides. *)
Fixpoint first_author (patterns : list regex) (first_paragraph : str) : option str :=
  match patterns with
  | [] => None
  | pattern :: rest =>
      match re_match pattern first_paragraph with
      | Some m => Some (drop_location (strip (group1 m)))
      | None => first_author rest first_paragraph
      end
  end.

Definition _extract_author_from_body (body_story : Story) : str :=
  match paragraphs body_story with
  | [] => []
  | p0 :: _ =>
      let first_paragraph := strip p0 in
      match first_author author_patterns first_paragraph with
      | Some author_name => author_name
      | None =>
          if (List.length first_paragraph <? 60)
             && matches (Seq Bol (cap_words_and false)) first_paragraph
          then strip first_paragraph
          else []
      end
  end.

(** [removal_patterns] for an (escaped) author, compiled with IGNORECASE. *)
Definition removal_patterns (author_name : str) : list regex :=
  [ seqs [Bol; escape true author_name; lit true ","; plus space; plus (Aza true);
          Star space];
    seqs [Bol; escape true author_name; plus space; lits true (py "and"); plus space;
          cap_words true; lit true ","; plus space; plus (Aza true); Star space];
    seqs [Bol; escape true author_name; Star space];
    seqs [Bol; escape true author_name; plus space; lits true (py "and"); plus space;
          cap_words true; Star space] ].

(** The loop over [removal_patterns]: [Some] of the new text at the
    first pattern that changes it (the [break]), [None] when none does. *)
Fixpoint first_removal (patterns : list regex) (cleaned : str) : option str :=
  match patterns with
  | [] => None
  | pattern :: rest =>
      let new_cleaned := strip (re_sub_empty pattern cleaned) in
      if negb (Str.eqb new_cleaned cleaned) then Some new_cleaned
      else first_removal rest cleaned
  end.

Definition function_words : list str :=
  map py ["The"; "A"; "An"; "In"; "On"; "At"; "For"; "With"; "By"; "After";
          "Before"; "During"; "Since"; "Until"; "About"; "Over"; "Under";
          "Through"; "Against"; "Between"; "Among"; "Around"; "Inside";
          "Outside"; "Upon"; "Within"; "Without"; "From"; "To"; "Of"; "Into";
          "Onto"; "Across"; "Down"; "Up"; "Off"; "Out"; "In"]%string.

(** [\b(The|A|...|In)\b] with IGNORECASE *)
Definition function_word_re : regex :=
  seqs [WordB; Group (alts (map (lits true) function_words)); WordB].

(** The "more aggressive approach": cut at the first function word. *)
Definition cut_at_function_word (paragraph : str) : str :=
  match re_search function_word_re paragraph with
  | Some (start, _) => strip (from start paragraph)
  | None => paragraph
  end.

Definition _remove_exact_author_from_paragraph (paragraph author_name : str) : str :=
  match author_name with
  | [] => paragraph
  | _ :: _ =>
      let cleaned :=
        match first_removal (removal_patterns author_name) paragraph with
        | Some new_cleaned => new_cleaned
        | None => paragraph
        end in
      if Str.eqb cleaned paragraph then cut_at_function_word paragraph
      else cleaned
  end.

Definition nonempty (s : str) : bool := negb (Nat.eqb (List.length s) 0).

Definition _clean_content_text (body_story : Story) : str :=
  match paragraphs body_story with
  | [] => []
  | p0 :: rest =>
      let first_para := strip p0 in
      let extracted_author := _extract_author_from_body body_story in
      let cleaned_paragraphs :=
        if nonempty extracted_author then
          let cleaned_first :=
            _remove_exact_author_from_paragraph first_para extracted_author in
          (if nonempty cleaned_first && (10 <? List.length (strip cleaned_first))
           then [strip cleaned_first] else [])
          ++ filter nonempty (map strip rest)
        else filter nonempty (map strip (p0 :: rest)) in
      join NL cleaned_paragraphs
  end.

(* ================================================================= *)
(** ** The rich content renderer *)

(** The loop of [_group_elements_by_paragraph]: the groups closed so
    far, the group being filled and [current_para_index]. *)
Definition group_step (acc : list (list ContentElement) * list ContentElement * option nat)
  (element : ContentElement) : list (list ContentElement) * list ContentElement * option nat :=
  let '(paragraphs, current_paragraph, current_para_index) := acc in
  let para_index := paragraph_range_index element in
  let '(paragraphs, current_paragraph) :=
    match current_para_index with
    | Some i =>
        if negb (Nat.eqb para_index i) then
          (match current_paragraph with
           | [] => paragraphs
           | _ :: _ => paragraphs ++ [current_paragraph]
           end, [])
        else (paragraphs, current_paragraph)
    | None => (paragraphs, current_paragraph)
    end in
  (paragraphs, current_paragraph ++ [element], Some para_index).

Definition _group_elements_by_paragraph (content_elements : list ContentElement)
  : list (list ContentElement) :=
  let '(paragraphs, current_paragraph, _) :=
    fold_left group_step content_elements ([], [], None) in
  match current_paragraph with
  | [] => paragraphs
  | _ :: _ => paragraphs ++ [current_paragraph]
  end.

Definition wrap (tag_name html_text : str) : str :=
  py "<" ++ tag_name ++ py ">" ++ html_text ++ py "</" ++ tag_name ++ py ">".

Definition _wrap_text_with_formatting (text : str) (element : ContentElement) : str :=
  let html_text := text in
  let html_text := if is_bold element then wrap (py "strong") html_text else html_text in
  let html_text := if is_italic element then wrap (py "em") html_text else html_text in
  let font_size := font_size element in
  if Qleb (16 # 1) font_size && negb (is_bold element) then wrap (py "h4") html_text
  else if Qleb (20 # 1) font_size then wrap (py "h3") html_text
  else html_text.

Definition _is_author_paragraph (paragraph_text extracted_author : str) : bool :=
  match extracted_author with
  | [] => false
  | _ :: _ =>
      let author_patterns :=
        [ seqs [Bol; escape true extracted_author];
          seqs [Bol; lits true (py "By"); plus space; escape true extracted_author];
          seqs [Bol; escape true extracted_author; lit true ","; plus space;
                plus (Aza true)] ] in
      existsb (fun pattern => matches pattern (strip paragraph_text)) author_patterns
  end.

(** One paragraph of the renderer: [Some] of its [<p>] block, [None]
    when the paragraph is skipped. *)
Definition render_paragraph (extracted_author : str) (para_elements : list ContentElement)
  : option str :=
  let kept := filter (fun element => nonempty (strip (text element))) para_elements in
  let paragraph_text_parts := map (fun element => strip (text element)) kept in
  let paragraph_html_parts :=
    map (fun element => _wrap_text_with_formatting (strip (text element)) element) kept in
  let paragraph_text := join (py " ") paragraph_text_parts in
  let paragraph_html := concat paragraph_html_parts in
  let is_author_para :=
    nonempty extracted_author && _is_author_paragraph paragraph_text extracted_author in
  if is_author_para then None
  else if nonempty (strip paragraph_html) then Some (wrap (py "p") paragraph_html)
  else None.

Definition _generate_rich_content_html (body_story : Story) : str :=
  match content_elements body_story with
  | [] => []
  | _ :: _ =>
      let extracted_author := _extract_author_from_body body_story in
      let para_ranges := _group_elements_by_paragraph (content_elements body_story) in
      let html_paragraphs := somes (map (render_paragraph extracted_author) para_ranges) in
      join NL html_paragraphs
  end.

(* ================================================================= *)
(** ** The headline matcher *)

Definition stop_words : list str :=
  map py ["this"; "that"; "with"; "from"; "they"; "were"; "been"; "have"; "will";
          "would"; "could"; "should"; "said"; "says"; "also"; "more"; "most";
          "much"; "many"; "some"; "very"; "when"; "where"; "what"; "which";
          "while"; "after"; "before"; "during"; "since"; "until"; "about";
          "above"; "below"; "between"; "through"; "against"]%string.

Definition important_keywords : list str :=
  map py ["president"; "minister"; "governor"; "senator"; "chairman";
          "commission"; "committee"; "party"; "government"; "assembly"; "court";
          "justice"; "university"; "union"; "movement"; "congress"; "forum"]%string.

(** [\b[a-z]{4,}\b] and [\b[A-Z][a-z]+(?:\s+[A-Z][a-z]+)*\b] *)
Definition word_re : regex := seqs [WordB; times 4 (az false); Star (az false); WordB].
Definition entity_re : regex := seqs [WordB; cap_words false; WordB].

Definition significant_words (s : str) : list str :=
  diff (dedup (re_findall word_re s)) stop_words.

Definition word_overlap_score (headline content : str) : Q :=
  let headline_words := significant_words (lower headline) in
  let content_words := significant_words (upto 300 (lower content)) in
  let common_words := inter headline_words content_words in
  if 0 <? List.length headline_words
  then (Q_of_nat (List.length common_words) / Q_of_nat (List.length headline_words)
        * (5 # 1))%Q
  else (0 # 1)%Q.

Definition common_entities (headline content : str) : list str :=
  inter (dedup (re_findall entity_re headline))
        (dedup (re_findall entity_re (upto 400 content))).

Definition entity_score (headline content : str) : Q :=
  Q_of_nat (List.length (common_entities headline content) * 2).

Definition keyword_score (headline content : str) : Q :=
  Q_of_nat (List.length
              (filter (fun keyword => contains keyword (lower headline)
                                      && contains keyword (lower content))
                      important_keywords)).

Definition _calculate_content_similarity (headline content : str) : Q :=
  (word_overlap_score headline content + entity_score headline content
   + keyword_score headline content)%Q.

(** [re.search(r'(\d+)', id)] followed by [int(group(1))] *)
Definition id_number (id : str) : option N :=
  match re_search (Group (plus digit)) id with
  | Some (_, m) => Some (int_of_digits (group1 m))
  | None => None
  end.

(** [None] is [float('inf')]. *)
Definition _calculate_id_distance (id1 id2 : str) : option N :=
  match id_number id1, id_number id2 with
  | Some val1, Some val2 => Some (N.max val1 val2 - N.min val1 val2)%N
  | _, _ => None
  end.

(** [max(0, 10 - (id_distance / 10))] *)
Definition id_score (id_distance : option N) : Q :=
  match id_distance with
  | Some d =>
      let x := ((10 # 1) - inject_Z (Z.of_N d) / (10 # 1))%Q in
      if Qltb (0 # 1) x then x else (0 # 1)%Q
  | None => (0 # 1)%Q
  end.

Definition unused (headlines : list Story) (used_headlines : list str) : list Story :=
  filter (fun headline => negb (mem (story_id headline) used_headlines)) headlines.

(** [list.sort(key=..., reverse=True)]: stable, largest key first. *)
Fixpoint insert_desc {A : Type} (x : A * Q) (l : list (A * Q)) : list (A * Q) :=
  match l with
  | [] => [x]
  | y :: l' => if Qltb (snd x) (snd y) then y :: insert_desc x l' else x :: y :: l'
  end.

Definition sort_desc {A : Type} (l : list (A * Q)) : list (A * Q) :=
  fold_right insert_desc [] l.

(** Strategy 1 *)
Definition content_matches (body_content : str) (headlines : list Story)
  (used_headlines : list str) : list (Story * Q) :=
  sort_desc
    (filter (fun p => Qltb (0 # 1) (snd p))
       (map (fun headline =>
               (headline,
                _calculate_content_similarity (lower (raw_content headline)) body_content))
            (unused headlines used_headlines))).

(** Strategy 2 builds and sorts a list of id distances that nothing
    reads afterwards; it has no part in the result.

    Strategy 3: the combined score of one headline, and the loop that
    keeps the best one. *)
Definition combined_score (body_id body_content : str) (headline : Story) : Q :=
  let content_score :=
    _calculate_content_similarity (lower (raw_content headline)) body_content in
  let id_distance := _calculate_id_distance body_id (story_id headline) in
  (content_score * (7 # 10) + id_score id_distance * (3 # 10))%Q.

Definition best_step (score : Story -> Q) (acc : option Story * Q) (headline : Story)
  : option Story * Q :=
  if Qltb (snd acc) (score headline) then (Some headline, score headline) else acc.

Definition best_combined (score : Story -> Q) (candidates : list Story)
  : option Story * Q :=
  fold_left (best_step score) candidates (None, (-1 # 1)%Q).

Definition combined_stage (body_id body_content : str) (headlines : list Story)
  (used_headlines : list str) : option Story :=
  match best_combined (combined_score body_id body_content)
                      (unused headlines used_headlines) with
  | (Some best_match, best_score) =>
      if Qleb (1 # 1) best_score then Some best_match else None
  | (None, _) => None
  end.

Definition _find_matching_headline (body_story : Story) (headlines : list Story)
  (used_headlines : list str) : option Story :=
  let body_id := story_id body_story in
  let body_content := lower (raw_content body_story) in
  match content_matches body_content headlines used_headlines with
  | (headline, score) :: _ =>
      if Qleb (2 # 1) score then Some headline
      else combined_stage body_id body_content headlines used_headlines
  | [] => combined_stage body_id body_content headlines used_headlines
  end.

Definition _extract_headline_from_content (body_story : Story) : str :=
  match find (fun elem => is_bold elem && Qltb (10 # 1) (font_size elem)
                          && (List.length (text elem) <? 100))
             (content_elements body_story) with
  | Some elem => text elem
  | None =>
      match paragraphs body_story with
      | p0 :: _ =>
          let first_sentence := split_head "." p0 in
          if 100 <? List.length first_sentence
          then upto 100 first_sentence ++ py "..."
          else first_sentence
      | [] => []
      end
  end.

(* ================================================================= *)
(** ** The article assembler *)

(** The partition at the head of [_match_headlines_with_content]. *)
Definition in_pool (t : StoryType) (story : Story) : bool :=
  negb (_is_metadata_content (raw_content story)) &&
  match _determine_story_type story, t with
  | t_headline, t_headline => true
  | t_body_content, t_body_content => true
  | _, _ => false
  end.

Definition headline_pool (all_stories : list Story) : list Story :=
  filter (in_pool t_headline) all_stories.

Definition body_pool (all_stories : list Story) : list Story :=
  filter (in_pool t_body_content) all_stories.

(** [len(re.findall(r'<p>', content_html))] *)
Definition count_p (content_html : str) : nat :=
  List.length (re_findall (lits false (py "<p>")) content_html).

Definition news_article_of (body_story : Story) (matching_headline : option Story)
  : Article :=
  let author := _extract_author_from_body body_story in
  let content_plain := _clean_content_text body_story in
  let content_html := _generate_rich_content_html body_story in
  let headline_text :=
    match matching_headline with
    | Some h => raw_content h
    | None => _extract_headline_from_content body_story
    end in
  {| a_story_id := story_id body_story;
     headline_story_id := match matching_headline with Some h => story_id h | None => [] end;
     a_filename := filename body_story;
     headline_filename := match matching_headline with Some h => filename h | None => [] end;
     article_type := news_article;
     headline := headline_text;
     author := author;
     a_category := category body_story;
     content := content_plain;
     content_html := Some content_html;
     content_formatted := Some true;
     a_full_text := full_text body_story;
     a_paragraphs := paragraphs body_story;
     metadata :=
       {| body_elements := List.length (content_elements body_story);
          headline_elements :=
            match matching_headline with
            | Some h => List.length (content_elements h)
            | None => 0
            end;
          has_matching_headline :=
            match matching_headline with Some _ => true | None => false end;
          formatting_preserved := Some (nonempty content_html);
          html_paragraph_count :=
            Some (if nonempty content_html then count_p content_html else 0) |} |}.

Definition standalone_article_of (headline : Story) : Article :=
  {| a_story_id := story_id headline;
     headline_story_id := story_id headline;
     a_filename := filename headline;
     headline_filename := filename headline;
     article_type := standalone_headline;
     headline := raw_content headline;
     author := [];
     a_category := category headline;
     content := [];
     content_html := None;
     content_formatted := None;
     a_full_text := raw_content headline;
     a_paragraphs := [raw_content headline];
     metadata :=
       {| body_elements := 0;
          headline_elements := List.length (content_elements headline);
          has_matching_headline := true;
          formatting_preserved := None;
          html_paragraph_count := None |} |}.

(** One pass of [for body_story in body_stories]: the articles so far
    and the set [used_headlines]. *)
Definition body_step (headlines : list Story) (acc : list Article * list str)
  (body_story : Story) : list Article * list str :=
  let '(matched_articles, used_headlines) := acc in
  let matching_headline := _find_matching_headline body_story headlines used_headlines in
  let used_headlines :=
    match matching_headline with
    | Some h => story_id h :: used_headlines
    | None => used_headlines
    end in
  (matched_articles ++ [news_article_of body_story matching_headline], used_headlines).

Definition match_bodies (headlines body_stories : list Story) : list Article * list str :=
  fold_left (body_step headlines) body_stories ([], []).

Definition _match_headlines_with_content (all_stories : list Story) : list Article :=
  let headlines := headline_pool all_stories in
  let body_stories := body_pool all_stories in
  let '(matched_articles, used_headlines) := match_bodies headlines body_stories in
  matched_articles ++ map standalone_article_of (unused headlines used_headlines).

(* ================================================================= *)
(** ** The document pass

    The archive is given by its [Stories/Story_*] members in sorted
    order, each with its name and what [fromstring] makes of it. *)

Definition story_file : Type := (str * fromstring_result)%type.

Definition MarkerRecord : Type := (nat * str * str)%type.

(** First pass, one file: an exception of the [try] block skips the file. *)
Definition scan_marker (i : nat) (file : story_file) : option MarkerRecord :=
  match snd file with
  | Malformed => None
  | WellFormed root =>
      match story_self root with
      | Raises _ => None
      | Returns story_id =>
          if _is_category_marker root then
            let part := _extract_category_from_story root in
            if nonempty part then Some (i, story_id, part) else None
          else None
      end
  end.

Definition all_markers (story_files : list story_file) : list MarkerRecord :=
  somes (map (fun p => scan_marker (fst p) (snd p))
             (combine (seq 0 (List.length story_files)) story_files)).

(** The loop over [all_markers]: [category_parts] and the ids added to
    [marker_story_ids], up to the [break]. *)
Fixpoint collect_markers (markers : list MarkerRecord) (expected_next_index : nat)
  : list str * list str :=
  match markers with
  | [] => ([], [])
  | (marker_index, story_id, content) :: rest =>
      if Nat.eqb marker_index expected_next_index then
        let '(category_parts, marker_story_ids) :=
          collect_markers rest (S expected_next_index) in
        (content :: category_parts, story_id :: marker_story_ids)
      else ([], [])
  end.

Definition detected_category (story_files : list story_file) : str :=
  concat (fst (collect_markers (all_markers story_files) 0)).

Definition marker_story_ids (story_files : list story_file) : list str :=
  snd (collect_markers (all_markers story_files) 0).

(** Second pass, one file. *)
Definition second_pass_file (detected : str) (marker_ids : list str) (file : story_file)
  : option Story :=
  match _parse_news_story (snd file) (fst file) with
  | Returns (Some article_data) =>
      if nonempty (raw_content article_data) then
        if negb (mem (story_id article_data) marker_ids) then
          Some (if nonempty detected && negb (nonempty (category article_data))
                then set_category article_data detected
                else article_data)
        else None
      else None
  | Returns None => None
  | Raises _ => None
  end.

Definition all_stories (story_files : list story_file) : list Story :=
  somes (map (second_pass_file (detected_category story_files)
                               (marker_story_ids story_files))
             story_files).

Definition extract_news_articles (story_files : list story_file) : list Article :=
  _match_headlines_with_content (all_stories story_files).

(* ================================================================= *)
(** ** Properties under study, and sample inputs

    The statements that the results below refute are given a name
    here; the samples are the inputs at which the program is run. *)

(** The text of an element after the bold and italic steps. *)
Definition emphasised (t : str) (element : ContentElement) : str :=
  let inner := if is_bold element then wrap (py "strong") t else t in
  if is_italic element then wrap (py "em") inner else inner.

(** "[h3] whenever the size is at least 20, [h4] only between 16 and 20
    on an element that is not bold". *)
Definition h3_takes_precedence : Prop :=
  forall (t : str) (element : ContentElement),
    ((20 # 1 <= font_size element)%Q ->
     _wrap_text_with_formatting t element = wrap (py "h3") (emphasised t element)) /\
    (_wrap_text_with_formatting t element = wrap (py "h4") (emphasised t element) ->
     (16 # 1 <= font_size element)%Q /\ (font_size element < 20 # 1)%Q
     /\ is_bold element = false).

Definition sample_element (t : string) (size : Q) (style : string)
  (para_index : nat) : ContentElement :=
  {| text := py t; font_size := size; font_style := py style;
     is_bold := contains (py "Bold") (py style);
     is_italic := contains (py "Italic") (py style);
     applied_style := []; paragraph_style := [];
     paragraph_range_index := para_index |}.

(** A story that differs from [story] in its raw content only. *)
Definition with_raw_content (story : Story) (raw : str) : Story :=
  {| story_id := story_id story; filename := filename story;
     content_elements := content_elements story; raw_content := raw;
     full_text := full_text story; paragraphs := paragraphs story;
     category := category story |}.

(** A one-paragraph story made of a single run. *)
Definition one_run_story (id : string) (t : str) (size : Q) (style : string) : Story :=
  {| story_id := py id; filename := py "Stories/Story_" ++ py id ++ py ".xml";
     content_elements :=
       [ {| text := t; font_size := size; font_style := py style;
            is_bold := contains (py "Bold") (py style);
            is_italic := contains (py "Italic") (py style);
            applied_style := []; paragraph_style := [];
            paragraph_range_index := 1 |} ];
     raw_content := t; full_text := t; paragraphs := [t]; category := [] |}.

(** "Every article carries [content_html] and an HTML paragraph count". *)
Definition every_article_has_html : Prop :=
  forall (stories : list Story) (a : Article),
    In a (_match_headlines_with_content stories) ->
    content_html a <> None /\ html_paragraph_count (metadata a) <> None.

(** "Malformed input fails with a ParseError, and so differs from the
    absent result of an input without text runs". *)
Definition malformed_input_fails : Prop :=
  forall filename : str,
    _parse_news_story Malformed filename = Raises ParseError /\
    (forall root : Element,
        text_runs root = [] ->
        _parse_news_story Malformed filename
        <> _parse_news_story (WellFormed root) filename).

(** Sample element trees, as [fromstring] returns them for a story file. *)
Definition x_content (t : string) : Element :=
  Elem T_Content [] (Some (py t)) [].

Definition x_run (size style : string) (kids : list Element) : Element :=
  Elem T_CharacterStyleRange
       [(py "PointSize", py size); (py "FontStyle", py style)] None kids.

Definition x_para (kids : list Element) : Element :=
  Elem T_ParagraphStyleRange [] None kids.

Definition x_story (id : string) (paras : list Element) : Element :=
  Elem (py "idPkg:Story") [] None
       [Elem T_Story [(py "Self", py id)] None paras].

Definition x_file (id : string) (paras : list Element) : story_file :=
  (py "Stories/Story_" ++ py id ++ py ".xml", WellFormed (x_story id paras)).

(** A story file whose only content is the short text [t]. *)
Definition x_marker (id t : string) : story_file :=
  x_file id [x_para [x_run "12" "Regular" [x_content t]]].

Definition x_body (id : string) (first second : string) : story_file :=
  x_file id [x_para [x_run "12" "Regular" [x_content first]];
             x_para [x_run "12" "Regular" [x_content second]]].

(** A well-formed story without any text. *)
Definition x_empty : Element := x_story "u0" [x_para [x_run "12" "Regular" []]].

(** The headline ids carried by the articles that have a headline. *)
Definition matched_ids (articles : list Article) : list str :=
  map headline_story_id (filter (fun a => has_matching_headline (metadata a)) articles).

(** An article built by the body loop from a body story of [bodies] and,
    possibly, a headline of [headlines]. *)
Definition from_body_loop (headlines bodies : list Story) (a : Article) : Prop :=
  exists (b : Story) (m : option Story),
    a = news_article_of b m /\ In b bodies /\
    (forall h, m = Some h -> In h headlines).

(** Three stories whose ids are one apart and whose texts share no word. *)
Definition sample_h10 : Story := one_run_story "u10" (py "Rain Expected") (18 # 1) "Bold".
Definition sample_h12 : Story := one_run_story "u12" (py "Fuel Prices") (18 # 1) "Bold".
Definition sample_b11 : Story :=
  {| story_id := py "u11"; filename := py "Stories/Story_u11.xml";
     content_elements := [ sample_element "John Doe, Lagos" (12 # 1) "Regular" 1;
                           sample_element "Nothing to report." (12 # 1) "Regular" 2 ];
     raw_content := py "John Doe, Lagos Nothing to report.";
     full_text := py "John Doe, Lagos" ++ NL ++ py "Nothing to report.";
     paragraphs := [py "John Doe, Lagos"; py "Nothing to report."];
     category := [] |}.

(** Two dateline stories, set as a bold one-line story of size 18. *)
Definition sample_monday : Story :=
  one_run_story "u20" (py "MONDAY, JANUARY 13, 2025") (18 # 1) "Bold".
Definition sample_tuesday : Story :=
  one_run_story "u21" (py "TUESDAY, JANUARY 14, 2025") (18 # 1) "Bold".

(** The archive of the docstring of [extract_news_articles]: the marker
    stories '247' and 'Business', then a body story. *)
Definition archive_247_business : list story_file :=
  [ x_marker "u1" "247"; x_marker "u2" "Business";
    x_body "u3" "John Doe, Lagos" "The council voted 7-2 to approve the budget." ].

(** Its siblings: two markers made of letters, and a gap at position 1. *)
Definition archive_capital_market : list story_file :=
  [ x_marker "u1" "capital"; x_marker "u2" "market";
    x_body "u3" "John Doe, Lagos" "The council voted 7-2 to approve the budget." ].

Definition archive_gap : list story_file :=
  [ x_marker "u1" "capital";
    x_body "u3" "John Doe, Lagos" "The council voted 7-2 to approve the budget.";
    x_marker "u2" "market" ].

(** A headline and the opening of a body that share a capitalised phrase. *)
Definition sample_headline_text : str := py "President Buhari Visits Lagos".
Definition sample_body_text : str := py "President Buhari Visits Lagos on Monday".

(** A text without upper-case letter. *)
Definition no_upper (s : str) : Prop := Forall (fun c => isupper c = false) s.

(** "Author removal is idempotent", for the author extracted from a
    story and any paragraph text. *)
Definition removal_idempotent : Prop :=
  forall (story : Story) (paragraph : str),
    _extract_author_from_body story <> [] ->
    _remove_exact_author_from_paragraph
      (_remove_exact_author_from_paragraph paragraph (_extract_author_from_body story))
      (_extract_author_from_body story)
    = _remove_exact_author_from_paragraph paragraph (_extract_author_from_body story).

(** A body story that opens with its author line and runs on. *)
Definition sample_author_paragraph : str :=
  py "Ade Ojo, Lagos Governor Sanwo-Olu has approved the budget".

Definition sample_author_story : Story :=
  one_run_story "u30" sample_author_paragraph (12 # 1) "Regular".

(** What a literal pattern does to the position: it consumes the
    characters of [w], one by one, or fails. *)
Fixpoint eat (ic : bool) (w : str) (st : mstate) : option mstate :=
  match w with
  | [] => Some st
  | x :: w' =>
      match m_rest st with
      | c :: tl =>
          if fold_case ic (Ascii.eqb x) c
          then eat ic w' (MState (S (m_pos st)) (Some c) tl (m_grp st))
          else None
      | [] => None
      end
  end.

(** [p] begins with [a], letter case set aside. *)
Fixpoint starts_with_nocase (a p : str) : bool :=
  match a, p with
  | [], _ => true
  | x :: a', c :: p' => fold_case true (Ascii.eqb x) c && starts_with_nocase a' p'
  | _ :: _, [] => false
  end.

(* ================================================================= *)
(** ** Further entry points and statements *)




(** The story parsed from a sample file (an empty story when there is none). *)
Definition parsed (file : story_file) : Story :=
  match _parse_news_story (snd file) (fst file) with
  | Returns (Some story) => story
  | _ => {| story_id := []; filename := []; content_elements := [];
            raw_content := []; full_text := []; paragraphs := []; category := [] |}
  end.

(** A story of two paragraph ranges; the first one holds a line break. *)
Definition x_two_paragraphs : Element :=
  x_story "u40"
    [ x_para [ x_run "18" "Bold" [x_content "Budget"; Elem T_Br [] None [];
                                  x_content " approved "];
               x_run "12" "Italic" [x_content "at last"] ];
      x_para [ x_run "12" "Regular" [x_content "The council voted."] ] ].

Definition x_two_paragraphs_file : story_file :=
  (py "Stories/Story_u40.xml", WellFormed x_two_paragraphs).

















(* ================================================================= *)
(** * Results *)

(** ** Text and numbers *)

Example parse_float_18_5 : parse_float (py "18.5") = Some (37 # 2)%Q.
Proof. reflexivity. Qed.

Example parse_float_12 : parse_float (py "12") = Some (12 # 1)%Q.
Proof. reflexivity. Qed.

Example parse_float_bad : parse_float (py "big") = None.
Proof. reflexivity. Qed.

Lemma eqb_eq : forall a b : str, Str.eqb a b = true <-> a = b.
Proof.
  induction a as [|x a IH]; destruct b as [|y b]; simpl; split; intro H;
    try reflexivity; try discriminate.
  - apply andb_true_iff in H. destruct H as [Hx Hab].
    apply Ascii.eqb_eq in Hx. apply IH in Hab. congruence.
  - injection H as -> ->. rewrite Ascii.eqb_refl. simpl. now apply IH.
Qed.

Lemma eqb_refl : forall a : str, Str.eqb a a = true.
Proof. intro a. now apply eqb_eq. Qed.

Lemma eqb_neq : forall a b : str, Str.eqb a b = false <-> a <> b.
Proof.
  intros a b. split.
  - intros H E. apply eqb_eq in E. congruence.
  - intro H. destruct (Str.eqb a b) eqn:E; [apply eqb_eq in E; contradiction | reflexivity].
Qed.

Lemma mem_In : forall (x : str) (l : list str), mem x l = true <-> In x l.
Proof.
  intros x l. unfold mem. rewrite existsb_exists. split.
  - intros [y [Hy E]]. apply eqb_eq in E. now subst.
  - intro H. exists x. split; [assumption | apply eqb_refl].
Qed.

Lemma mem_not_In : forall (x : str) (l : list str), mem x l = false <-> ~ In x l.
Proof.
  intros x l. rewrite <- mem_In. destruct (mem x l); split; intro H;
    try discriminate; try reflexivity; try (intro; discriminate).
  now elim H.
Qed.

Lemma Qleb_le : forall a b : Q, Qleb a b = true <-> (a <= b)%Q.
Proof. intros. unfold Qleb. apply Qle_bool_iff. Qed.

Lemma Qltb_lt : forall a b : Q, Qltb a b = true <-> (a < b)%Q.
Proof.
  intros a b. unfold Qltb. rewrite negb_true_iff. split.
  - intro H. apply Qnot_le_lt. intro L. apply Qle_bool_iff in L. congruence.
  - intro H. destruct (Qle_bool b a) eqn:E; [|reflexivity].
    apply Qle_bool_iff in E. exfalso. exact (Qlt_not_le _ _ H E).
Qed.

Lemma Qltb_ge : forall a b : Q, Qltb a b = false <-> (b <= a)%Q.
Proof.
  intros a b. unfold Qltb. rewrite negb_false_iff. apply Qle_bool_iff.
Qed.

Lemma Qleb_gt : forall a b : Q, Qleb a b = false <-> (b < a)%Q.
Proof.
  intros a b. split.
  - intro H. apply Qnot_le_lt. intro L. apply Qleb_le in L. congruence.
  - intro H. destruct (Qleb a b) eqn:E; [|reflexivity].
    apply Qleb_le in E. exfalso. exact (Qlt_not_le _ _ H E).
Qed.

Lemma length_wrap : forall tag_name t : str,
  List.length (wrap tag_name t) = List.length t + 2 * List.length tag_name + 5.
Proof.
  intros. unfold wrap. repeat rewrite length_app. simpl. lia.
Qed.

(* ================================================================= *)
(** ** The matcher: positions and fuel *)

Lemma rmatch_Star : forall (r : regex) (st : mstate) (k : mstate -> option mstate),
  rmatch (Star r) st k = star_loop r k (List.length (m_rest st)) st.
Proof. reflexivity. Qed.

Lemma star_loop_S : forall (r : regex) (k : mstate -> option mstate) (n : nat)
  (st : mstate),
  star_loop r k (S n) st
  = match rmatch r st
            (fun st' => if m_pos st <? m_pos st' then star_loop r k n st' else None) with
    | Some res => Some res
    | None => k st
    end.
Proof. reflexivity. Qed.

(** A match only moves forward, and what it consumes is taken off the
    rest: every state handed to the continuation is further right by
    exactly the number of characters that left the rest. *)
Lemma rmatch_progress : forall (r : regex) (st : mstate)
  (k : mstate -> option mstate) (res : mstate),
  rmatch r st k = Some res ->
  exists st' : mstate,
    k st' = Some res /\
    m_pos st' + List.length (m_rest st') = m_pos st + List.length (m_rest st) /\
    m_pos st <= m_pos st'.
Proof.
  induction r as [| p | r1 IH1 r2 IH2 | r1 IH1 r2 IH2 | r IH | | | | r IH];
    intros st k res H.
  - exists st. cbn [rmatch] in H. auto.
  - cbn [rmatch] in H. destruct (m_rest st) as [|c tl] eqn:R; [discriminate |].
    destruct (p c); [| discriminate].
    eexists. split; [exact H |]. simpl. split; lia.
  - cbn [rmatch] in H. apply IH1 in H. destruct H as [st1 [H [E1 L1]]].
    apply IH2 in H. destruct H as [st2 [H [E2 L2]]].
    exists st2. split; [exact H |]. split; lia.
  - cbn [rmatch] in H. destruct (rmatch r1 st k) as [y |] eqn:E.
    + injection H as <-. apply IH1. exact E.
    + apply IH2. exact H.
  - rewrite rmatch_Star in H.
    assert (L : forall (n : nat) (st0 : mstate),
               star_loop r k n st0 = Some res ->
               exists st' : mstate,
                 k st' = Some res /\
                 m_pos st' + List.length (m_rest st')
                 = m_pos st0 + List.length (m_rest st0) /\
                 m_pos st0 <= m_pos st');
      [| exact (L _ _ H)].
    clear st H. intro n.
    induction n as [|n IHn]; intros st H.
    + exists st. simpl in H. auto.
    + rewrite star_loop_S in H.
      destruct (rmatch r st
                  (fun st' => if m_pos st <? m_pos st' then star_loop r k n st' else None))
        as [y |] eqn:E.
      * injection H as <-. apply IH in E. destruct E as [st1 [E [E1 L1]]].
        destruct (m_pos st <? m_pos st1); [| discriminate].
        apply IHn in E. destruct E as [st2 [E [E2 L2]]].
        exists st2. split; [exact E |]. split; lia.
      * exists st. auto.
  - cbn [rmatch] in H. destruct (m_pos st =? 0); [| discriminate]. exists st. auto.
  - cbn [rmatch] in H. destruct (at_end st); [| discriminate]. exists st. auto.
  - cbn [rmatch] in H. destruct (at_boundary st); [| discriminate]. exists st. auto.
  - cbn [rmatch] in H. apply IH in H. destruct H as [st1 [H [E1 L1]]].
    eexists. split; [exact H |]. simpl. split; lia.
Qed.

(** The result of a match, with its end position and its rest. *)
Lemma rmatch_result : forall (r : regex) (st res : mstate),
  rmatch r st Some = Some res ->
  m_pos res + List.length (m_rest res) = m_pos st + List.length (m_rest st) /\
  m_pos st <= m_pos res.
Proof.
  intros r st res H. apply rmatch_progress in H.
  destruct H as [st' [E H]]. injection E as <-. exact H.
Qed.

(** The scan is given enough fuel: any larger amount yields the same
    pieces. *)
Lemma scan_fuel : forall (r : regex) (fuel fuel' : nat) (st : mstate),
  List.length (m_rest st) < fuel -> List.length (m_rest st) < fuel' ->
  scan fuel r st = scan fuel' r st.
Proof.
  intros r fuel. induction fuel as [|fuel IH]; intros fuel' st H H'; [lia |].
  destruct fuel' as [|fuel']; [lia |].
  cbn [scan].
  destruct (rmatch r (MState (m_pos st) (m_prev st) (m_rest st) None) Some)
    as [st' |] eqn:E.
  - apply rmatch_result in E. simpl in E. destruct E as [E L].
    destruct (m_pos st <? m_pos st') eqn:P.
    + apply Nat.ltb_lt in P. f_equal. apply IH; lia.
    + destruct (m_rest st) as [|c tl] eqn:R; [reflexivity |].
      f_equal. f_equal. apply IH; simpl in *; lia.
  - destruct (m_rest st) as [|c tl] eqn:R; [reflexivity |].
    f_equal. apply IH; simpl in *; lia.
Qed.

Lemma pieces_fuel : forall (r : regex) (s : str) (fuel : nat),
  List.length s < fuel -> scan fuel r (start_state s) = pieces r s.
Proof.
  intros r s fuel H. unfold pieces. apply scan_fuel; simpl; lia.
Qed.

(** A repetition whose body cannot advance stops: on an empty rest the
    loop returns to its continuation, whatever fuel it is given. *)
Lemma star_loop_at_end : forall (r : regex) (k : mstate -> option mstate)
  (n : nat) (st : mstate),
  m_rest st = [] -> star_loop r k n st = k st.
Proof.
  intros r k n st R. destruct n as [|n]; [reflexivity |].
  rewrite star_loop_S.
  destruct (rmatch r st
              (fun st' => if m_pos st <? m_pos st' then star_loop r k n st' else None))
    as [y |] eqn:E; [| reflexivity].
  apply rmatch_progress in E. destruct E as [st1 [E [E1 L1]]].
  rewrite R in E1. simpl in E1.
  destruct (m_pos st <? m_pos st1) eqn:P; [| discriminate].
  apply Nat.ltb_lt in P. lia.
Qed.

(** Two continuations that agree on the states a match can reach give
    the same match. *)
Lemma rmatch_ext : forall (r : regex) (st : mstate)
  (k1 k2 : mstate -> option mstate),
  (forall st' : mstate,
      m_pos st' + List.length (m_rest st') = m_pos st + List.length (m_rest st) ->
      m_pos st <= m_pos st' -> k1 st' = k2 st') ->
  rmatch r st k1 = rmatch r st k2.
Proof.
  induction r as [| p | r1 IH1 r2 IH2 | r1 IH1 r2 IH2 | r IH | | | | r IH];
    intros st k1 k2 H.
  - cbn [rmatch]. apply H; lia.
  - cbn [rmatch]. destruct (m_rest st) as [|c tl] eqn:R; [reflexivity |].
    destruct (p c); [| reflexivity]. apply H; simpl; lia.
  - cbn [rmatch]. apply IH1. intros st1 E1 L1. apply IH2.
    intros st2 E2 L2. apply H; lia.
  - cbn [rmatch]. rewrite (IH1 st k1 k2 H), (IH2 st k1 k2 H). reflexivity.
  - rewrite !rmatch_Star.
    assert (L : forall (n : nat) (st0 : mstate),
               m_pos st0 + List.length (m_rest st0)
               = m_pos st + List.length (m_rest st) ->
               m_pos st <= m_pos st0 ->
               star_loop r k1 n st0 = star_loop r k2 n st0);
      [| apply L; lia].
    intro n. induction n as [|n IHn]; intros st0 E0 L0.
    + simpl. apply H; assumption.
    + rewrite !star_loop_S.
      rewrite (H st0 E0 L0).
      rewrite (IH st0 _ (fun st' => if m_pos st0 <? m_pos st'
                                    then star_loop r k2 n st' else None));
        [reflexivity |].
      intros st1 E1 L1. destruct (m_pos st0 <? m_pos st1); [| reflexivity].
      apply IHn; lia.
  - cbn [rmatch]. destruct (m_pos st =? 0); [apply H; lia | reflexivity].
  - cbn [rmatch]. destruct (at_end st); [apply H; lia | reflexivity].
  - cbn [rmatch]. destruct (at_boundary st); [apply H; lia | reflexivity].
  - cbn [rmatch]. apply IH. intros st1 E1 L1. apply H; simpl; lia.
Qed.

(** The repetition is given enough fuel: any amount that covers the
    rest of the subject yields the same result. *)
Lemma star_loop_fuel : forall (r : regex) (k : mstate -> option mstate)
  (n m : nat) (st : mstate),
  List.length (m_rest st) <= n -> List.length (m_rest st) <= m ->
  star_loop r k n st = star_loop r k m st.
Proof.
  intros r k n. induction n as [|n IH]; intros m st Hn Hm.
  - assert (R : m_rest st = []) by (destruct (m_rest st); [reflexivity | simpl in Hn; lia]).
    rewrite !star_loop_at_end by exact R. reflexivity.
  - destruct m as [|m].
    + assert (R : m_rest st = [])
        by (destruct (m_rest st); [reflexivity | simpl in Hm; lia]).
      rewrite !star_loop_at_end by exact R. reflexivity.
    + rewrite !star_loop_S.
      rewrite (rmatch_ext r st _ (fun st' => if m_pos st <? m_pos st'
                                            then star_loop r k m st' else None));
        [reflexivity |].
      intros st1 E1 L1. destruct (m_pos st <? m_pos st1) eqn:P; [| reflexivity].
      apply Nat.ltb_lt in P. apply IH; lia.
Qed.

(* ================================================================= *)
(** ** The rich content renderer *)

Lemma wrap_h3_h4 : forall t : str, wrap (py "h4") t <> wrap (py "h3") t.
Proof. intros t H. unfold wrap in H. simpl in H. discriminate. Qed.

Lemma wrap_not_self : forall tag_name t : str, wrap tag_name t <> t.
Proof.
  intros tag_name t H. apply (f_equal (@List.length ascii)) in H.
  rewrite length_wrap in H. lia.
Qed.

(** C1, as stated, fails: an element of size 24 that is not bold is
    rendered as an [h4] heading, not as an [h3] heading. *)
Lemma h3_precedence_fails : ~ h3_takes_precedence.
Proof.
  intro H.
  destruct (H (py "Big") (sample_element "Big" (24 # 1) "Regular" 1)) as [H3 _].
  assert (L : (20 # 1 <= font_size (sample_element "Big" (24 # 1) "Regular" 1))%Q)
    by (apply Qleb_le; reflexivity).
  specialize (H3 L). vm_compute in H3. discriminate.
Qed.

(** C1, amended: after the bold and italic steps, an element that is
    not bold and has size at least 16 is wrapped in [h4] (also at size
    20 and above: the [h4] rule comes first); an [h3] wrapping occurs
    exactly for a bold element of size at least 20; every other
    element is left as the bold and italic steps made it. *)
Theorem wrap_heading_rule : forall (t : str) (element : ContentElement),
  ((16 # 1 <= font_size element)%Q -> is_bold element = false ->
   _wrap_text_with_formatting t element = wrap (py "h4") (emphasised t element)) /\
  ((20 # 1 <= font_size element)%Q -> is_bold element = true ->
   _wrap_text_with_formatting t element = wrap (py "h3") (emphasised t element)) /\
  (_wrap_text_with_formatting t element = wrap (py "h3") (emphasised t element) ->
   (20 # 1 <= font_size element)%Q /\ is_bold element = true) /\
  (_wrap_text_with_formatting t element = wrap (py "h4") (emphasised t element) ->
   (16 # 1 <= font_size element)%Q /\ is_bold element = false) /\
  ((font_size element < 16 # 1)%Q \/
   ((font_size element < 20 # 1)%Q /\ is_bold element = true) ->
   _wrap_text_with_formatting t element = emphasised t element).
Proof.
  intros t element.
  assert (E : _wrap_text_with_formatting t element =
              if Qleb (16 # 1) (font_size element) && negb (is_bold element)
              then wrap (py "h4") (emphasised t element)
              else if Qleb (20 # 1) (font_size element)
                   then wrap (py "h3") (emphasised t element)
                   else emphasised t element) by reflexivity.
  rewrite E. clear E.
  assert (L1620 : (16 # 1 <= 20 # 1)%Q) by (apply Qleb_le; reflexivity).
  destruct (Qleb (16 # 1) (font_size element)) eqn:E16;
    destruct (Qleb (20 # 1) (font_size element)) eqn:E20;
    destruct (is_bold element) eqn:Eb; simpl;
    repeat match goal with
           | H : Qleb _ _ = true |- _ => apply Qleb_le in H
           | H : Qleb _ _ = false |- _ => apply Qleb_gt in H
           end;
    assert (F : forall a b : Q, (a < b)%Q -> (b <= a)%Q -> False)
      by (intros a b Hlt Hle; exact (Qlt_not_le _ _ Hlt Hle));
    (split; [| split; [| split; [| split]]]).
  all: intros.
  all: try reflexivity.
  all: try discriminate.
  all: try (split; [assumption | reflexivity]).
  all: try match goal with
        | H : wrap (py "h4") ?x = wrap (py "h3") ?x |- _ => elim (wrap_h3_h4 H)
        | H : wrap (py "h3") ?x = wrap (py "h4") ?x |- _ =>
            symmetry in H; elim (wrap_h3_h4 H)
        | H : ?x = wrap _ ?x |- _ => symmetry in H; elim (wrap_not_self H)
        end.
  all: try match goal with
        | H : _ \/ _ |- _ => destruct H as [H | [H ?]]
        end.
  all: try discriminate.
  all: try match goal with
        | H1 : (?a < ?b)%Q, H2 : (?b <= ?a)%Q |- _ => exfalso; exact (F _ _ H1 H2)
        | H1 : (?a < 16 # 1)%Q, H2 : (20 # 1 <= ?a)%Q |- _ =>
            exfalso; exact (F _ _ H1 (Qle_trans _ _ _ L1620 H2))
        end.
Qed.

Lemma wrap_heading_rule_witness :
  _wrap_text_with_formatting (py "Big") (sample_element "Big" (24 # 1) "Regular" 1)
  = wrap (py "h4") (emphasised (py "Big") (sample_element "Big" (24 # 1) "Regular" 1))
  /\ _wrap_text_with_formatting (py "Big") (sample_element "Big" (24 # 1) "Bold" 1)
     = wrap (py "h3") (emphasised (py "Big") (sample_element "Big" (24 # 1) "Bold" 1)).
Proof.
  split.
  - apply (proj1 (wrap_heading_rule (py "Big") (sample_element "Big" (24 # 1) "Regular" 1))).
    + apply Qleb_le. reflexivity.
    + reflexivity.
  - apply (proj1 (proj2 (wrap_heading_rule (py "Big")
                           (sample_element "Big" (24 # 1) "Bold" 1)))).
    + apply Qleb_le. reflexivity.
    + reflexivity.
Defined.

(* ================================================================= *)
(** ** The story classifier *)

(** C8: with an average font size of exactly 15, a bold element and a
    single paragraph, a story whose raw content has 99 characters is a
    headline, and the same story with a raw content of 100 characters
    is not. *)
Theorem classifier_boundary : forall (story : Story) (raw100 : str),
  content_elements story <> [] ->
  (avg_font_size (content_elements story) == 15 # 1)%Q ->
  existsb is_bold (content_elements story) = true ->
  List.length (paragraphs story) = 1 ->
  List.length (raw_content story) = 99 ->
  List.length raw100 = 100 ->
  _determine_story_type story = t_headline /\
  _determine_story_type (with_raw_content story raw100) <> t_headline.
Proof.
  intros story raw100 Hne Havg Hbold Hpar H99 H100.
  assert (L : Qleb (15 # 1) (avg_font_size (content_elements story)) = true).
  { apply Qleb_le. rewrite Havg. apply Qle_refl. }
  assert (G : Qltb (avg_font_size (content_elements story)) (15 # 1) = false).
  { apply Qltb_ge. rewrite Havg. apply Qle_refl. }
  unfold _determine_story_type. simpl.
  destruct (content_elements story) as [|e es] eqn:E; [contradiction |].
  rewrite L, G, Hbold, Hpar, H99, H100. simpl. split.
  - reflexivity.
  - destruct (_looks_like_author_line raw100); discriminate.
Qed.

Lemma classifier_boundary_witness :
  _determine_story_type
    (one_run_story "u10" (repeat "a"%char 99) (15 # 1) "Bold") = t_headline /\
  _determine_story_type
    (with_raw_content (one_run_story "u10" (repeat "a"%char 99) (15 # 1) "Bold")
                      (repeat "a"%char 100)) <> t_headline.
Proof.
  apply classifier_boundary.
  - discriminate.
  - reflexivity.
  - reflexivity.
  - reflexivity.
  - reflexivity.
  - reflexivity.
Defined.

(* ================================================================= *)
(** ** The story parser *)

(** C7, as stated, fails: on malformed input the parser does not raise;
    it returns the absent result. *)
Lemma malformed_input_does_not_fail : ~ malformed_input_fails.
Proof.
  intro H. destruct (H (py "Stories/Story_u0.xml")) as [H1 _].
  simpl in H1. discriminate.
Qed.

Lemma parse_child_texts : forall (para_range char_range : Element) (i : nat)
  (st : parse_state) (child : Element),
  map text (content_data (parse_child para_range char_range i st child))
  = map text (content_data st)
    ++ match run_text child with Some t => [t] | None => [] end.
Proof.
  intros para_range char_range i st child. unfold parse_child, run_text.
  destruct (Str.eqb (tag child) T_Content).
  - destruct (truthy_text (ET.text child)) as [t |].
    + destruct (strip t) as [|c u]; simpl.
      * rewrite app_nil_r. reflexivity.
      * rewrite map_app. reflexivity.
    + rewrite app_nil_r.
      destruct (Str.eqb (tag child) T_Br); [| reflexivity].
      destruct (para_content st); reflexivity.
  - rewrite app_nil_r.
    destruct (Str.eqb (tag child) T_Br); [| reflexivity].
    destruct (para_content st); reflexivity.
Qed.

Lemma parse_children_texts : forall (para_range char_range : Element) (i : nat)
  (kids : list Element) (st : parse_state),
  map text (content_data
              (fold_left (parse_child para_range char_range i) kids st))
  = map text (content_data st) ++ somes (map run_text kids).
Proof.
  intros para_range char_range i kids.
  induction kids as [|child kids IH]; intro st; simpl.
  - rewrite app_nil_r. reflexivity.
  - rewrite IH, parse_child_texts, <- app_assoc.
    destruct (run_text child); reflexivity.
Qed.

Lemma parse_char_ranges_texts : forall (para_range : Element) (i : nat)
  (char_ranges : list Element) (st : parse_state),
  map text (content_data
              (fold_left (parse_char_range para_range i) char_ranges st))
  = map text (content_data st)
    ++ flat_map (fun char_range => somes (map run_text (children char_range)))
                char_ranges.
Proof.
  intros para_range i char_ranges.
  induction char_ranges as [|cr crs IH]; intro st; simpl.
  - rewrite app_nil_r. reflexivity.
  - rewrite IH. unfold parse_char_range.
    rewrite parse_children_texts, <- app_assoc. reflexivity.
Qed.

Lemma parse_para_ranges_texts : forall (para_ranges : list Element)
  (acc : nat * parse_state),
  map text (content_data (snd (fold_left parse_para_range para_ranges acc)))
  = map text (content_data (snd acc))
    ++ flat_map (fun para_range =>
                   flat_map (fun char_range =>
                               somes (map run_text (children char_range)))
                            (findall_below T_CharacterStyleRange para_range))
                para_ranges.
Proof.
  induction para_ranges as [|pr prs IH]; intro acc; simpl.
  - rewrite app_nil_r. reflexivity.
  - rewrite IH, app_assoc. f_equal. unfold parse_para_range. cbn [snd].
    match goal with
    | |- context [fold_left ?f ?l ?st0] => 
        pose proof (parse_char_ranges_texts pr (S (fst acc)) l st0) as H;
        destruct (para_content (fold_left f l st0)); exact H
    end.
Qed.

(** The content elements of a parsed story are its text runs. *)
Lemma content_data_text_runs : forall root : Element,
  map text (content_data (parse_root root)) = text_runs root.
Proof.
  intro root. unfold parse_root, text_runs.
  rewrite parse_para_ranges_texts. reflexivity.
Qed.

(** C7, amended: the parser handles the ParseError itself.  It returns
    the absent result on malformed input, and the same absent result on
    a well-formed input without text runs; neither case raises, and
    the two results are equal. *)
Theorem parse_absent_results : forall (filename : str) (root : Element),
  text_runs root = [] ->
  _parse_news_story Malformed filename = Returns None /\
  _parse_news_story (WellFormed root) filename = Returns None /\
  _parse_news_story Malformed filename = _parse_news_story (WellFormed root) filename.
Proof.
  intros filename root H.
  assert (E : _parse_news_story (WellFormed root) filename = Returns None).
  { unfold _parse_news_story. rewrite <- content_data_text_runs in H.
    destruct (content_data (parse_root root)); [reflexivity | discriminate]. }
  rewrite E. repeat split.
Qed.

Lemma parse_absent_results_witness :
  _parse_news_story Malformed (py "Stories/Story_u0.xml") = Returns None /\
  _parse_news_story (WellFormed x_empty) (py "Stories/Story_u0.xml") = Returns None /\
  _parse_news_story Malformed (py "Stories/Story_u0.xml")
  = _parse_news_story (WellFormed x_empty) (py "Stories/Story_u0.xml").
Proof.
  apply parse_absent_results. reflexivity.
Defined.

(* ================================================================= *)
(** ** The headline matcher *)

Lemma insert_desc_In : forall (A : Type) (x y : A * Q) (l : list (A * Q)),
  In y (insert_desc x l) <-> y = x \/ In y l.
Proof.
  intros A x y l. induction l as [|z l IH]; simpl.
  - split; intros [H | H]; auto.
  - destruct (Qltb (snd x) (snd z)); simpl; rewrite ?IH; intuition auto.
Qed.

Lemma sort_desc_In : forall (A : Type) (y : A * Q) (l : list (A * Q)),
  In y (sort_desc l) <-> In y l.
Proof.
  intros A y l. induction l as [|x l IH]; simpl.
  - reflexivity.
  - rewrite insert_desc_In, IH. intuition auto.
Qed.

Lemma unused_In : forall (h : Story) (headlines : list Story) (used : list str),
  In h (unused headlines used) <-> In h headlines /\ ~ In (story_id h) used.
Proof.
  intros h headlines used. unfold unused. rewrite filter_In, negb_true_iff, mem_not_In.
  reflexivity.
Qed.

(** What the loop of strategy 3 leaves in [(best_match, best_score)]:
    either nothing beat the initial score, or the winner is the first
    candidate with the largest score. *)
Lemma best_fold_spec : forall (score : Story -> Q) (candidates : list Story)
  (best0 : option Story) (s0 : Q),
  (fst (fold_left (best_step score) candidates (best0, s0)) = best0 /\
   snd (fold_left (best_step score) candidates (best0, s0)) = s0 /\
   forall x, In x candidates -> (score x <= s0)%Q)
  \/
  (exists before h after,
      candidates = before ++ h :: after /\
      fst (fold_left (best_step score) candidates (best0, s0)) = Some h /\
      snd (fold_left (best_step score) candidates (best0, s0)) = score h /\
      (s0 < score h)%Q /\
      (forall x, In x before -> (score x < score h)%Q) /\
      (forall x, In x after -> (score x <= score h)%Q)).
Proof.
  intros score candidates. induction candidates as [|c l IH]; intros best0 s0.
  - left. simpl. split; [reflexivity | split; [reflexivity |]]. intros x [].
  - simpl.
    assert (S : best_step score (best0, s0) c
                = if Qltb s0 (score c) then (Some c, score c) else (best0, s0))
      by reflexivity.
    rewrite S. clear S.
    destruct (Qltb s0 (score c)) eqn:E.
    + apply Qltb_lt in E. right.
      destruct (IH (Some c) (score c))
        as [[H1 [H2 H3]] | [b [h [a [H1 [H2 [H3 [H4 [H5 H6]]]]]]]]].
      * exists [], c, l. simpl.
        split; [reflexivity |]. split; [exact H1 |]. split; [exact H2 |].
        split; [exact E |]. split; [intros x [] | exact H3].
      * exists (c :: b), h, a. simpl. rewrite H1.
        split; [reflexivity |]. split; [rewrite <- H1; exact H2 |].
        split; [rewrite <- H1; exact H3 |].
        split; [eapply Qlt_trans; eassumption |].
        split; [| exact H6].
        intros x [<- | Hx]; [exact H4 | apply H5; exact Hx].
    + apply Qltb_ge in E.
      destruct (IH best0 s0)
        as [[H1 [H2 H3]] | [b [h [a [H1 [H2 [H3 [H4 [H5 H6]]]]]]]]].
      * left. split; [exact H1 |]. split; [exact H2 |].
        intros x [<- | Hx]; [exact E | apply H3; exact Hx].
      * right. exists (c :: b), h, a. simpl. rewrite H1.
        split; [reflexivity |]. split; [rewrite <- H1; exact H2 |].
        split; [rewrite <- H1; exact H3 |].
        split; [exact H4 |]. split; [| exact H6].
        intros x [<- | Hx]; [| apply H5; exact Hx].
        eapply Qle_lt_trans; eassumption.
Qed.

Lemma best_combined_In : forall (score : Story -> Q) (candidates : list Story)
  (h : Story) (s : Q),
  best_combined score candidates = (Some h, s) -> In h candidates.
Proof.
  intros score candidates h s H. unfold best_combined in H.
  destruct (best_fold_spec score candidates None (-1 # 1)%Q)
    as [[H1 _] | [b [h' [a [H1 [H2 _]]]]]]; rewrite H in *; simpl in *.
  - discriminate.
  - injection H2 as <-. rewrite H1. apply in_or_app. right. left. reflexivity.
Qed.

Lemma combined_stage_In : forall (body_id body_content : str) (headlines : list Story)
  (used : list str) (h : Story),
  combined_stage body_id body_content headlines used = Some h ->
  In h (unused headlines used).
Proof.
  intros body_id body_content headlines used h H. unfold combined_stage in H.
  destruct (best_combined _ _) as [[b |] s] eqn:E; [| discriminate].
  destruct (Qleb (1 # 1) s); [| discriminate].
  injection H as <-. eapply best_combined_In. eassumption.
Qed.

Lemma content_matches_In : forall (body_content : str) (headlines : list Story)
  (used : list str) (h : Story) (s : Q),
  In (h, s) (content_matches body_content headlines used) ->
  In h (unused headlines used).
Proof.
  intros body_content headlines used h s H. unfold content_matches in H.
  apply (proj1 (sort_desc_In _ _)) in H. apply (proj1 (filter_In _ _ _)) in H.
  destruct H as [H _].
  apply in_map_iff in H. destruct H as [x [E Hx]]. injection E as <- _. exact Hx.
Qed.

(** A matched headline is one of the headlines not used so far. *)
Lemma find_matching_unused : forall (body_story : Story) (headlines : list Story)
  (used : list str) (h : Story),
  _find_matching_headline body_story headlines used = Some h ->
  In h (unused headlines used).
Proof.
  intros body_story headlines used h H. unfold _find_matching_headline in H.
  destruct (content_matches _ headlines used) as [|[h1 s1] rest] eqn:E.
  - eapply combined_stage_In. eassumption.
  - destruct (Qleb (2 # 1) s1).
    + injection H as <-. eapply content_matches_In. rewrite E. left. reflexivity.
    + eapply combined_stage_In. eassumption.
Qed.

(** C10: in the combined-scoring stage the selected headline is the
    first headline, in the order of the pool of unused headlines, whose
    combined score is maximal: every unused headline before it scores
    strictly less, none after it scores more, and it is accepted from a
    score of 1 on; when no headline is selected, every unused headline
    scores below 1.  The result is a function of the pool order. *)
Theorem combined_stage_first_maximum :
  forall (body_id body_content : str) (headlines : list Story) (used : list str),
    let score := combined_score body_id body_content in
    match combined_stage body_id body_content headlines used with
    | Some h =>
        exists before after,
          unused headlines used = before ++ h :: after /\
          (1 # 1 <= score h)%Q /\
          (forall x, In x before -> (score x < score h)%Q) /\
          (forall x, In x after -> (score x <= score h)%Q)
    | None => forall x, In x (unused headlines used) -> (score x < 1 # 1)%Q
    end.
Proof.
  intros body_id body_content headlines used score. unfold combined_stage.
  fold score. unfold best_combined.
  assert (M : (-1 # 1 < 1 # 1)%Q) by (apply Qltb_lt; reflexivity).
  destruct (best_fold_spec score (unused headlines used) None (-1 # 1)%Q)
    as [[H1 [H2 H3]] | [b [h [a [H1 [H2 [H3 [H4 [H5 H6]]]]]]]]];
    destruct (fold_left (best_step score) (unused headlines used) (None, (-1 # 1)%Q))
      as [best s]; simpl in *; subst.
  - intros x Hx. eapply Qle_lt_trans; [apply H3; exact Hx | exact M].
  - destruct (Qleb (1 # 1) (score h)) eqn:E.
    + apply Qleb_le in E. exists b, a. rewrite H1. repeat split; auto.
    + apply Qleb_gt in E. rewrite H1. intros x Hx.
      apply in_app_or in Hx. destruct Hx as [Hx | [<- | Hx]].
      * eapply Qlt_trans; [apply H5; exact Hx | exact E].
      * exact E.
      * eapply Qle_lt_trans; [apply H6; exact Hx | exact E].
Qed.

Lemma combined_stage_first_maximum_witness :
  exists before after,
    unused [sample_h10; sample_h12] [] = before ++ sample_h10 :: after /\
    (1 # 1 <= combined_score (py "u11") (py "nothing to report.") sample_h10)%Q /\
    (forall x, In x before ->
       (combined_score (py "u11") (py "nothing to report.") x
        < combined_score (py "u11") (py "nothing to report.") sample_h10)%Q) /\
    (forall x, In x after ->
       (combined_score (py "u11") (py "nothing to report.") x
        <= combined_score (py "u11") (py "nothing to report.") sample_h10)%Q).
Proof.
  assert (E : combined_stage (py "u11") (py "nothing to report.")
                             [sample_h10; sample_h12] [] = Some sample_h10)
    by (vm_compute; reflexivity).
  pose proof (combined_stage_first_maximum (py "u11") (py "nothing to report.")
                [sample_h10; sample_h12] []) as H.
  cbv zeta in H. rewrite E in H. exact H.
Defined.

(* ================================================================= *)
(** ** The article assembler *)

Lemma matched_ids_app : forall l1 l2 : list Article,
  matched_ids (l1 ++ l2) = matched_ids l1 ++ matched_ids l2.
Proof.
  intros. unfold matched_ids. rewrite filter_app, map_app. reflexivity.
Qed.

(** The invariant of the body loop: every article so far comes from a
    body story, the ids of the matched headlines are exactly the used
    set, in the order of matching, and no id was used twice. *)
Lemma match_bodies_inv : forall (headlines all_bodies bodies : list Story)
  (articles : list Article) (used : list str),
  incl bodies all_bodies ->
  (forall a, In a articles -> from_body_loop headlines all_bodies a) ->
  matched_ids articles = rev used ->
  NoDup used ->
  (forall a, In a (fst (fold_left (body_step headlines) bodies (articles, used))) ->
             from_body_loop headlines all_bodies a) /\
  matched_ids (fst (fold_left (body_step headlines) bodies (articles, used)))
  = rev (snd (fold_left (body_step headlines) bodies (articles, used))) /\
  NoDup (snd (fold_left (body_step headlines) bodies (articles, used))).
Proof.
  intros headlines all_bodies bodies.
  induction bodies as [|b bodies IH]; intros articles used Hincl Hfrom Hids Hnd.
  - simpl. auto.
  - cbn [fold_left].
    assert (S : body_step headlines (articles, used) b
                = (articles ++ [news_article_of b (_find_matching_headline b headlines used)],
                   match _find_matching_headline b headlines used with
                   | Some h => story_id h :: used
                   | None => used
                   end)) by reflexivity.
    rewrite S. clear S.
    apply IH.
    + intros x Hx. apply Hincl. right. exact Hx.
    + intros a Ha. apply in_app_or in Ha. destruct Ha as [Ha | [<- | []]].
      * apply Hfrom. exact Ha.
      * exists b, (_find_matching_headline b headlines used).
        split; [reflexivity |]. split; [apply Hincl; left; reflexivity |].
        intros h Hh. apply find_matching_unused in Hh.
        apply unused_In in Hh. tauto.
    + rewrite matched_ids_app, Hids.
      destruct (_find_matching_headline b headlines used) as [h |]; simpl.
      * reflexivity.
      * apply app_nil_r.
    + destruct (_find_matching_headline b headlines used) as [h |] eqn:E.
      * constructor; [| exact Hnd].
        apply find_matching_unused in E. apply unused_In in E. tauto.
      * exact Hnd.
Qed.

Lemma match_bodies_spec : forall headlines bodies : list Story,
  (forall a, In a (fst (match_bodies headlines bodies)) ->
             from_body_loop headlines bodies a) /\
  matched_ids (fst (match_bodies headlines bodies))
  = rev (snd (match_bodies headlines bodies)) /\
  NoDup (snd (match_bodies headlines bodies)).
Proof.
  intros headlines bodies. unfold match_bodies. apply match_bodies_inv.
  - apply incl_refl.
  - intros a [].
  - reflexivity.
  - constructor.
Qed.

Lemma output_shape : forall all_stories : list Story,
  _match_headlines_with_content all_stories
  = fst (match_bodies (headline_pool all_stories) (body_pool all_stories))
    ++ map standalone_article_of
         (unused (headline_pool all_stories)
                 (snd (match_bodies (headline_pool all_stories) (body_pool all_stories)))).
Proof.
  intro all_stories. unfold _match_headlines_with_content.
  destruct (match_bodies _ _) as [articles used]. reflexivity.
Qed.

Lemma in_output : forall (all_stories : list Story) (a : Article),
  In a (_match_headlines_with_content all_stories) ->
  from_body_loop (headline_pool all_stories) (body_pool all_stories) a \/
  exists h, a = standalone_article_of h /\
            In h (headline_pool all_stories) /\
            ~ In (story_id h)
                 (snd (match_bodies (headline_pool all_stories) (body_pool all_stories))).
Proof.
  intros all_stories a Ha. rewrite output_shape in Ha.
  apply in_app_or in Ha. destruct Ha as [Ha | Ha].
  - left. apply (proj1 (match_bodies_spec _ _)). exact Ha.
  - right. apply in_map_iff in Ha. destruct Ha as [h [E Hh]].
    exists h. apply unused_In in Hh. split; [symmetry; exact E | exact Hh].
Qed.

Lemma count_p_nil : count_p [] = 0.
Proof. reflexivity. Qed.

(** The code does not give every article its HTML: the article emitted
    for the unmatched headline 'Rain Expected' has no [content_html]
    key and no HTML paragraph count. *)
Lemma every_article_has_html_fails : ~ every_article_has_html.
Proof.
  intro H.
  destruct (H [sample_h10] (standalone_article_of sample_h10)) as [H1 _].
  - vm_compute. left. reflexivity.
  - apply H1. reflexivity.
Qed.

(** C9: the code gives the two fields to [news_article] records only.
    Every [news_article] record carries [content_html] and, in its
    metadata, the number of [<p>] occurrences in that HTML; the record
    built for an unmatched headline, a [standalone_headline], carries
    neither of the two, although the sibling branch sets both and
    [main.py] reports that all articles have HTML content. *)
Theorem article_html_fields : forall (all_stories : list Story) (a : Article),
  In a (_match_headlines_with_content all_stories) ->
  (article_type a = news_article /\
   exists html, content_html a = Some html /\
                html_paragraph_count (metadata a) = Some (count_p html))
  \/
  (article_type a = standalone_headline /\
   content_html a = None /\ html_paragraph_count (metadata a) = None).
Proof.
  intros all_stories a Ha. apply in_output in Ha.
  destruct Ha as [[b [m [E _]]] | [h [E _]]]; subst a.
  - left. split; [reflexivity |].
    exists (_generate_rich_content_html b). split; [reflexivity |].
    simpl. destruct (_generate_rich_content_html b); reflexivity.
  - right. repeat split.
Qed.

Lemma article_html_fields_witness :
  (article_type (standalone_article_of sample_h10) = news_article /\
   exists html, content_html (standalone_article_of sample_h10) = Some html /\
                html_paragraph_count (metadata (standalone_article_of sample_h10))
                = Some (count_p html))
  \/
  (article_type (standalone_article_of sample_h10) = standalone_headline /\
   content_html (standalone_article_of sample_h10) = None /\
   html_paragraph_count (metadata (standalone_article_of sample_h10)) = None).
Proof.
  apply (article_html_fields [sample_h10]). vm_compute. left. reflexivity.
Defined.

Lemma matched_ids_standalone : forall l : list Story,
  matched_ids (map standalone_article_of l) = map story_id l.
Proof.
  induction l as [|h l IH]; [reflexivity |].
  unfold matched_ids in *. simpl. rewrite IH. reflexivity.
Qed.

Lemma NoDup_map_filter : forall (A B : Type) (f : A -> B) (p : A -> bool) (l : list A),
  NoDup (map f l) -> NoDup (map f (filter p l)).
Proof.
  intros A B f p l. induction l as [|x l IH]; simpl; intro H.
  - constructor.
  - inversion H as [| y ys Hx Hl]; subst.
    destruct (p x); simpl; [constructor |]; auto.
    intro Hin. apply Hx. apply in_map_iff in Hin. destruct Hin as [z [E Hz]].
    apply in_map_iff. exists z. split; [exact E |].
    apply filter_In in Hz. tauto.
Qed.

Lemma nonempty_ids_matched : forall l : list Article,
  (forall a, In a l -> has_matching_headline (metadata a) = false ->
             headline_story_id a = []) ->
  filter nonempty (map headline_story_id l) = filter nonempty (matched_ids l).
Proof.
  induction l as [|a l IH]; intro H; [reflexivity |].
  unfold matched_ids in *. simpl.
  destruct (has_matching_headline (metadata a)) eqn:E; simpl.
  - rewrite IH; [reflexivity |]. intros x Hx. apply H. right. exact Hx.
  - rewrite (H a (or_introl eq_refl) E). simpl.
    apply IH. intros x Hx. apply H. right. exact Hx.
Qed.

(** The headline ids of the whole output: the used set in the order of
    matching, then the ids of the headlines left over. *)
Lemma matched_ids_output : forall all_stories : list Story,
  matched_ids (_match_headlines_with_content all_stories)
  = rev (snd (match_bodies (headline_pool all_stories) (body_pool all_stories)))
    ++ map story_id
         (unused (headline_pool all_stories)
                 (snd (match_bodies (headline_pool all_stories) (body_pool all_stories)))).
Proof.
  intro all_stories. rewrite output_shape, matched_ids_app, matched_ids_standalone.
  rewrite (proj1 (proj2 (match_bodies_spec _ _))). reflexivity.
Qed.

Lemma matched_ids_NoDup : forall all_stories : list Story,
  NoDup (map story_id (headline_pool all_stories)) ->
  NoDup (matched_ids (_match_headlines_with_content all_stories)).
Proof.
  intros all_stories Hnd. rewrite matched_ids_output. apply NoDup_app.
  - apply NoDup_rev. apply (proj2 (proj2 (match_bodies_spec _ _))).
  - unfold unused. apply NoDup_map_filter. exact Hnd.
  - intros x Hx Hx'. apply in_rev in Hx.
    apply in_map_iff in Hx'. destruct Hx' as [h [E Hh]].
    apply unused_In in Hh. subst x. tauto.
Qed.

(** C6: when the headline stories have distinct ids, no headline id is
    carried by two output articles: the headline ids of the articles
    that have a headline are pairwise distinct, so are the non-empty
    [headline_story_id] values of the whole output, and the id of a
    headline matched to a body story is never the one of a
    [standalone_headline] article. *)
Theorem headline_used_at_most_once : forall all_stories : list Story,
  NoDup (map story_id (headline_pool all_stories)) ->
  NoDup (matched_ids (_match_headlines_with_content all_stories)) /\
  NoDup (filter nonempty
           (map headline_story_id (_match_headlines_with_content all_stories))) /\
  (forall a1 a2 : Article,
      In a1 (_match_headlines_with_content all_stories) ->
      In a2 (_match_headlines_with_content all_stories) ->
      article_type a1 = news_article ->
      has_matching_headline (metadata a1) = true ->
      article_type a2 = standalone_headline ->
      headline_story_id a1 <> headline_story_id a2).
Proof.
  intros all_stories Hnd.
  pose proof (matched_ids_NoDup all_stories Hnd) as Hm.
  split; [exact Hm |]. split.
  - rewrite nonempty_ids_matched.
    + apply NoDup_filter. exact Hm.
    + intros a Ha Hf. apply in_output in Ha.
      destruct Ha as [[b [m [E _]]] | [h [E _]]]; subst a.
      * destruct m; [discriminate | reflexivity].
      * discriminate.
  - intros a1 a2 H1 H2 T1 M1 T2 E.
    apply in_output in H2. destruct H2 as [[b [m [E2 _]]] | [h [E2 [_ Hh]]]];
      subst a2; [discriminate |].
    apply Hh. simpl in E. rewrite <- E.
    rewrite output_shape in H1. apply in_app_or in H1. destruct H1 as [H1 | H1].
    + apply in_rev. rewrite <- (proj1 (proj2 (match_bodies_spec _ _))).
      unfold matched_ids. apply in_map. apply filter_In. split; assumption.
    + apply in_map_iff in H1. destruct H1 as [h1 [E1 _]]. subst a1. discriminate.
Qed.

Lemma headline_used_at_most_once_witness :
  NoDup (matched_ids
           (_match_headlines_with_content [sample_h10; sample_b11; sample_h12])) /\
  NoDup (filter nonempty
           (map headline_story_id
                (_match_headlines_with_content [sample_h10; sample_b11; sample_h12]))) /\
  (forall a1 a2 : Article,
      In a1 (_match_headlines_with_content [sample_h10; sample_b11; sample_h12]) ->
      In a2 (_match_headlines_with_content [sample_h10; sample_b11; sample_h12]) ->
      article_type a1 = news_article ->
      has_matching_headline (metadata a1) = true ->
      article_type a2 = standalone_headline ->
      headline_story_id a1 <> headline_story_id a2).
Proof.
  apply headline_used_at_most_once.
  vm_compute.
  constructor.
  - simpl. intros [H | []]. discriminate.
  - constructor; [intros [] | constructor].
Defined.

(** On the sample, the body story takes the first of two headlines that
    tie on the combined score, and the other one stands alone. *)
Example sample_matching :
  map (fun a => (a_story_id a, headline_story_id a, article_type a))
      (_match_headlines_with_content [sample_h10; sample_b11; sample_h12])
  = [ (py "u11", py "u10", news_article); (py "u12", py "u12", standalone_headline) ].
Proof. vm_compute. reflexivity. Qed.

(** C4: the pre-filter knows the dateline of a Monday only.  The
    dateline of a Tuesday is not metadata; set in bold at size 18 it
    enters the headline pool and is emitted as a headline. *)
Theorem tuesday_dateline_passes :
  _is_metadata_content (raw_content sample_monday) = true /\
  _is_metadata_content (raw_content sample_tuesday) = false /\
  headline_pool [sample_monday; sample_tuesday] = [sample_tuesday] /\
  _match_headlines_with_content [sample_monday; sample_tuesday]
  = [standalone_article_of sample_tuesday].
Proof. repeat split; vm_compute; reflexivity. Qed.

(* ================================================================= *)
(** ** Capitalised phrases in the similarity score *)

Lemma lower_char_not_upper : forall c : ascii, isupper (lower_char c) = false.
Proof. intro c. destruct c as [[] [] [] [] [] [] [] []]; reflexivity. Qed.

Lemma lower_no_upper : forall s : str, no_upper (lower s).
Proof.
  intro s. unfold no_upper, lower. apply Forall_map.
  apply Forall_forall. intros c _. apply lower_char_not_upper.
Qed.

(** The entity pattern cannot start on a character that is not an
    upper-case letter. *)
Lemma entity_needs_upper : forall (st : mstate) (k : mstate -> option mstate),
  no_upper (m_rest st) -> rmatch entity_re st k = None.
Proof.
  intros st k H. unfold entity_re, cap_words, cap_word, AZ, cls. simpl.
  destruct (at_boundary st); [| reflexivity].
  destruct (m_rest st) as [|c tl]; [reflexivity |].
  inversion H as [| c' tl' Hc Htl]; subst.
  unfold fold_case. rewrite Hc. reflexivity.
Qed.

Lemma scan_entity_no_upper : forall (fuel : nat) (st : mstate),
  no_upper (m_rest st) -> filter fst (scan fuel entity_re st) = [].
Proof.
  induction fuel as [|fuel IH]; intros st H; [reflexivity |].
  cbn [scan]. rewrite entity_needs_upper by exact H.
  destruct (m_rest st) as [|c tl] eqn:E; [reflexivity |].
  simpl. apply IH. simpl. inversion H; assumption.
Qed.

Lemma findall_entity_lower : forall s : str, re_findall entity_re (lower s) = [].
Proof.
  intro s. unfold re_findall, pieces.
  rewrite scan_entity_no_upper; [reflexivity | apply lower_no_upper].
Qed.

(** C3: the matcher lowers both texts before it scores them, and a
    lowered text holds no capitalised phrase.  The phrase component is
    0 for every headline and body the matcher scores; on the sample it
    is 2 for the texts as written and 0 for the texts as scored. *)
Theorem matcher_entity_component_zero :
  (forall headline body : Story,
      entity_score (lower (raw_content headline)) (lower (raw_content body))
      = (0 # 1)%Q) /\
  common_entities sample_headline_text sample_body_text = [sample_headline_text] /\
  entity_score sample_headline_text sample_body_text = (2 # 1)%Q /\
  entity_score (lower sample_headline_text) (lower sample_body_text) = (0 # 1)%Q.
Proof.
  assert (Z : forall h b : str, entity_score (lower h) (lower b) = (0 # 1)%Q).
  { intros h b. unfold entity_score, common_entities.
    rewrite findall_entity_lower. reflexivity. }
  split; [intros; apply Z |].
  split; [vm_compute; reflexivity |].
  split; [vm_compute; reflexivity | apply Z].
Qed.

(* ================================================================= *)
(** ** The document pass *)

(** C5: the text '247' has no letter, so the story that holds it is
    not recorded as a marker; the marker 'Business' then sits at
    position 1 with nothing at position 0, the prefix is empty, no
    category is detected and no story is set aside.  The archive with
    the markers 'capital' and 'market' does yield 'capitalmarket'. *)
Theorem marker_247_business :
  _is_valid_category (py "247") = false /\
  all_markers archive_247_business = [(1, py "u2", py "Business")] /\
  detected_category archive_247_business = [] /\
  marker_story_ids archive_247_business = [] /\
  map a_category (extract_news_articles archive_247_business) = [[]] /\
  detected_category archive_capital_market = py "capitalmarket".
Proof. repeat split; vm_compute; reflexivity. Qed.

(** The parts of the category rule that do hold.  The loop accepts the
    longest prefix of the marker list whose positions count up from
    [expected_next_index], and stops at the first other position. *)
Lemma collect_markers_prefix : forall (markers : list MarkerRecord) (n : nat),
  exists k : nat,
    fst (collect_markers markers n) = map snd (firstn k markers) /\
    snd (collect_markers markers n) = map (fun m => snd (fst m)) (firstn k markers) /\
    (forall j m, nth_error (firstn k markers) j = Some m -> fst (fst m) = n + j) /\
    (forall m, nth_error markers k = Some m -> fst (fst m) <> n + k).
Proof.
  induction markers as [|[[i id] t] rest IH]; intro n.
  - exists 0. simpl. repeat split; intros; try discriminate.
    destruct j; discriminate.
  - simpl. destruct (Nat.eqb i n) eqn:E.
    + apply Nat.eqb_eq in E. subst i.
      destruct (IH (S n)) as [k [H1 [H2 [H3 H4]]]].
      destruct (collect_markers rest (S n)) as [parts ids]. simpl in *.
      exists (S k). simpl. rewrite H1, H2. repeat split.
      * intros j m Hj. destruct j as [|j]; simpl in Hj.
        -- injection Hj as <-. simpl. lia.
        -- rewrite (H3 j m Hj). lia.
      * intros m Hm. rewrite (Nat.add_succ_r n k). apply H4. exact Hm.
    + apply Nat.eqb_neq in E. exists 0. simpl. repeat split.
      * intros j m Hj. destruct j; discriminate.
      * intros m Hm. injection Hm as <-. simpl. lia.
Qed.

Example gap_stops_the_prefix :
  detected_category archive_gap = py "capital" /\
  marker_story_ids archive_gap = [py "u1"].
Proof. split; vm_compute; reflexivity. Qed.




(* ================================================================= *)
(** ** Author removal *)

(** *** Stripping *)

Lemma lstrip_cases : forall s : str,
  lstrip s = [] \/ exists c t, lstrip s = c :: t /\ isspace c = false.
Proof.
  induction s as [|c s IH]; simpl.
  - left. reflexivity.
  - destruct (isspace c) eqn:E; [exact IH |]. right. exists c, s. auto.
Qed.

Lemma lstrip_idem : forall s : str, lstrip (lstrip s) = lstrip s.
Proof.
  intro s. destruct (lstrip_cases s) as [E | [c [t [E H]]]]; rewrite E.
  - reflexivity.
  - simpl. rewrite H. reflexivity.
Qed.

Lemma lstrip_app : forall a b : str,
  lstrip (a ++ b) = match lstrip a with [] => lstrip b | _ :: _ => lstrip a ++ b end.
Proof.
  induction a as [|c a IH]; intro b; simpl.
  - reflexivity.
  - destruct (isspace c); [apply IH | reflexivity].
Qed.

Lemma rstrip_app : forall a b : str,
  rstrip (a ++ b) = match rstrip b with [] => rstrip a | _ :: _ => a ++ rstrip b end.
Proof.
  intros a b. unfold rstrip. rewrite rev_app_distr, lstrip_app.
  destruct (lstrip (rev b)) as [|c t] eqn:E.
  - reflexivity.
  - cbv iota. rewrite rev_app_distr, rev_involutive.
    destruct (rev (c :: t)) as [|d u] eqn:F; [| reflexivity].
    apply (f_equal (@List.length ascii)) in F. rewrite length_rev in F. discriminate.
Qed.

Lemma rstrip_cons : forall (c : ascii) (t : str),
  isspace c = false -> rstrip (c :: t) = c :: rstrip t.
Proof.
  intros c t H. change (c :: t) with ([c] ++ t). rewrite rstrip_app.
  destruct (rstrip t); [| reflexivity].
  unfold rstrip. simpl. rewrite H. reflexivity.
Qed.

Lemma rstrip_idem : forall s : str, rstrip (rstrip s) = rstrip s.
Proof.
  intro s. unfold rstrip. rewrite rev_involutive, lstrip_idem. reflexivity.
Qed.

(** The right strip keeps a prefix: it is empty or starts as the text does. *)
Lemma rstrip_head : forall (c : ascii) (t : str),
  rstrip (c :: t) = [] \/ exists t', rstrip (c :: t) = c :: t'.
Proof.
  intros c t. change (c :: t) with ([c] ++ t). rewrite rstrip_app.
  destruct (rstrip t) as [|d u].
  - unfold rstrip. simpl. destruct (isspace c); simpl; [left | right; exists []]; reflexivity.
  - right. exists (d :: u). reflexivity.
Qed.

Lemma strip_idem : forall s : str, strip (strip s) = strip s.
Proof.
  intro s. unfold strip.
  destruct (lstrip_cases s) as [E | [c [t [E H]]]]; rewrite E.
  - reflexivity.
  - rewrite (@rstrip_cons c t H). simpl. rewrite H.
    rewrite <- (@rstrip_cons c t H). apply rstrip_idem.
Qed.

(** *** Literal patterns and alternatives *)

Lemma rmatch_lits : forall (ic : bool) (w : str) (st : mstate)
  (k : mstate -> option mstate),
  rmatch (lits ic w) st k
  = match eat ic w st with Some st' => k st' | None => None end.
Proof.
  intros ic w. unfold lits. induction w as [|x w IH]; intros st k.
  - reflexivity.
  - destruct w as [|y w'].
    + cbn [map seqs rmatch lit eat].
      destruct (m_rest st) as [|c tl]; [reflexivity |].
      destruct (fold_case ic (Ascii.eqb x) c); reflexivity.
    + change (seqs (map (lit ic) (x :: y :: w')))
        with (Seq (lit ic x) (seqs (map (lit ic) (y :: w')))).
      cbn [rmatch lit]. cbn [eat].
      destruct (m_rest st) as [|c tl]; [reflexivity |].
      destruct (fold_case ic (Ascii.eqb x) c); [| reflexivity].
      apply IH.
Qed.

Lemma rmatch_alts_inv : forall (rs : list regex) (st : mstate)
  (k : mstate -> option mstate) (x : mstate),
  rmatch (alts rs) st k = Some x ->
  exists r, In r rs /\ rmatch r st k = Some x.
Proof.
  induction rs as [|r rs IH]; intros st k x H.
  - cbn [alts rmatch] in H. destruct (m_rest st); discriminate.
  - destruct rs as [|r2 rs'].
    + exists r. split; [left; reflexivity | exact H].
    + change (alts (r :: r2 :: rs')) with (Alt r (alts (r2 :: rs'))) in H.
      cbn [rmatch] in H.
      destruct (rmatch r st k) as [y |] eqn:E.
      * exists r. split; [left; reflexivity | congruence].
      * destruct (IH st k x H) as [r' [Hin Hr']].
        exists r'. split; [right; exact Hin | exact Hr'].
Qed.

Lemma rmatch_alts_some : forall (rs : list regex) (st : mstate)
  (k : mstate -> option mstate) (r : regex) (x : mstate),
  In r rs -> rmatch r st k = Some x ->
  exists y, rmatch (alts rs) st k = Some y.
Proof.
  induction rs as [|r1 rs IH]; intros st k r x Hin Hr.
  - destruct Hin.
  - destruct rs as [|r2 rs'].
    + destruct Hin as [<- | []]. exists x. exact Hr.
    + change (alts (r1 :: r2 :: rs')) with (Alt r1 (alts (r2 :: rs'))).
      cbn [rmatch].
      destruct (rmatch r1 st k) as [y |] eqn:E.
      * exists y. reflexivity.
      * destruct Hin as [<- | Hin]; [congruence |].
        eapply IH; eassumption.
Qed.

(** *** The function-word pattern *)

Lemma function_word_inv : forall (st x : mstate),
  rmatch function_word_re st Some = Some x ->
  at_boundary st = true /\
  exists w st', In w function_words /\ eat true w st = Some st' /\
                at_boundary st' = true.
Proof.
  intros st x H. unfold function_word_re in H.
  change (seqs [WordB; Group (alts (map (lits true) function_words)); WordB])
    with (Seq WordB (Seq (Group (alts (map (lits true) function_words))) WordB)) in H.
  cbn [rmatch] in H.
  destruct (at_boundary st) eqn:B; [| discriminate].
  split; [reflexivity |].
  apply rmatch_alts_inv in H. destruct H as [r [Hin Hr]].
  apply in_map_iff in Hin. destruct Hin as [w [<- Hw]].
  rewrite rmatch_lits in Hr.
  destruct (eat true w st) as [st' |] eqn:E; [| discriminate].
  exists w, st'. split; [exact Hw |]. split; [exact E |].
  match type of Hr with
  | (if ?b then _ else _) = _ => destruct b eqn:B'; [| discriminate]
  end.
  exact B'.
Qed.

Lemma function_word_some : forall (st st' : mstate) (w : str),
  at_boundary st = true -> In w function_words ->
  eat true w st = Some st' -> at_boundary st' = true ->
  exists x, rmatch function_word_re st Some = Some x.
Proof.
  intros st st' w B Hw E B'. unfold function_word_re.
  change (seqs [WordB; Group (alts (map (lits true) function_words)); WordB])
    with (Seq WordB (Seq (Group (alts (map (lits true) function_words))) WordB)).
  cbn [rmatch]. rewrite B.
  eapply rmatch_alts_some with (r := lits true w).
  - apply in_map. exact Hw.
  - rewrite rmatch_lits, E.
    change (at_boundary
              (MState (m_pos st') (m_prev st') (m_rest st')
                      (Some (firstn (m_pos st' - m_pos st) (m_rest st)))))
      with (at_boundary st').
    rewrite B'. reflexivity.
Qed.

Lemma isalpha_lower : forall c : ascii, isalpha (lower_char c) = isalpha c.
Proof. intro c. destruct c as [[] [] [] [] [] [] [] []]; reflexivity. Qed.

Lemma isalpha_upper : forall c : ascii, isalpha (upper_char c) = isalpha c.
Proof. intro c. destruct c as [[] [] [] [] [] [] [] []]; reflexivity. Qed.

Lemma alpha_not_space : forall c : ascii, isalpha c = true -> isspace c = false.
Proof.
  intro c. destruct c as [[] [] [] [] [] [] [] []]; intro H;
    first [reflexivity | discriminate H].
Qed.

Lemma alpha_word : forall c : ascii, isalpha c = true -> isword c = true.
Proof. intros c H. unfold isword. rewrite H. reflexivity. Qed.

(** Under IGNORECASE a letter of the pattern is matched by a letter. *)
Lemma fold_case_alpha : forall x c : ascii,
  isalpha x = true -> fold_case true (Ascii.eqb x) c = true -> isalpha c = true.
Proof.
  intros x c Hx H. unfold fold_case in H. simpl in H.
  apply orb_true_iff in H. destruct H as [H | H].
  - apply Ascii.eqb_eq in H. subst. exact Hx.
  - apply orb_true_iff in H. destruct H as [H | H]; apply Ascii.eqb_eq in H; subst x.
    + rewrite isalpha_lower in Hx. exact Hx.
    + rewrite isalpha_upper in Hx. exact Hx.
Qed.

Lemma function_words_alpha : forall w : str,
  In w function_words -> forallb isalpha w = true /\ w <> [].
Proof.
  assert (H : forallb (fun w => forallb isalpha w && nonempty w) function_words = true)
    by (vm_compute; reflexivity).
  intros w Hw. apply (proj1 (forallb_forall _ _) H) in Hw.
  apply andb_true_iff in Hw. destruct Hw as [H1 H2]. split; [exact H1 |].
  intro E. subst w. discriminate.
Qed.

(** A word of letters that is read off a text is read off the
    right-stripped text as well, and ends on the same character. *)
Lemma eat_rstrip : forall w : str,
  forallb isalpha w = true ->
  forall st st' : mstate,
    eat true w st = Some st' ->
    forall (pos2 : nat) (prev2 : option ascii) (grp2 : option str),
    exists st2' : mstate,
      eat true w (MState pos2 prev2 (rstrip (m_rest st)) grp2) = Some st2' /\
      m_rest st2' = rstrip (m_rest st') /\
      (w <> [] -> m_prev st2' = m_prev st' /\ word_before st' = true).
Proof.
  induction w as [|x w IH]; intros Hw st st' E pos2 prev2 grp2.
  - simpl in E. injection E as <-. eexists. split; [reflexivity |].
    split; [reflexivity |]. intro H. now elim H.
  - simpl in Hw. apply andb_true_iff in Hw. destruct Hw as [Hx Hw].
    cbn [eat] in E. destruct (m_rest st) as [|c tl] eqn:R; [discriminate |].
    destruct (fold_case true (Ascii.eqb x) c) eqn:F; [| discriminate].
    pose proof (@fold_case_alpha x c Hx F) as Hc.
    rewrite (@rstrip_cons c tl (@alpha_not_space c Hc)).
    cbn [eat m_rest]. rewrite F.
    destruct (IH Hw _ _ E (S pos2) (Some c) grp2) as [st2' [E2 [R2 P2]]].
    exists st2'. split; [exact E2 |]. split; [exact R2 |].
    intros _. destruct w as [|y w'].
    + simpl in E, E2. injection E as <-. injection E2 as <-. simpl.
      split; [reflexivity |]. unfold word_before. simpl. apply alpha_word. exact Hc.
    + apply P2. discriminate.
Qed.

Lemma eat_first_alpha : forall (x : ascii) (w : str) (st st' : mstate),
  isalpha x = true -> eat true (x :: w) st = Some st' ->
  exists c tl, m_rest st = c :: tl /\ isalpha c = true.
Proof.
  intros x w st st' Hx E. cbn [eat] in E.
  destruct (m_rest st) as [|c tl]; [discriminate |].
  destruct (fold_case true (Ascii.eqb x) c) eqn:F; [| discriminate].
  exists c, tl. split; [reflexivity |]. eapply fold_case_alpha; eassumption.
Qed.

(** *** Searching *)

Lemma search_from_spec : forall (r : regex) (rest : str) (pos : nat)
  (prev : option ascii) (start : nat) (st' : mstate),
  search_from r pos prev rest = Some (start, st') ->
  exists (pre suf : str) (prev' : option ascii),
    rest = pre ++ suf /\ start = pos + List.length pre /\
    rmatch r (MState start prev' suf None) Some = Some st'.
Proof.
  intros r rest. induction rest as [|c tl IH]; intros pos prev start st' H.
  - simpl in H. destruct (rmatch r (MState pos prev [] None) Some) eqn:E; [| discriminate].
    injection H as <- <-. exists [], [], prev. simpl. rewrite Nat.add_0_r. auto.
  - simpl in H.
    destruct (rmatch r (MState pos prev (c :: tl) None) Some) eqn:E.
    + injection H as <- <-. exists [], (c :: tl), prev. simpl. rewrite Nat.add_0_r. auto.
    + destruct (IH _ _ _ _ H) as [pre [suf [prev' [H1 [H2 H3]]]]].
      exists (c :: pre), suf, prev'. simpl. rewrite H1.
      split; [reflexivity |]. split; [lia | exact H3].
Qed.

Lemma search_from_hit : forall (r : regex) (rest : str) (pos : nat)
  (prev : option ascii) (x : mstate),
  rmatch r (MState pos prev rest None) Some = Some x ->
  search_from r pos prev rest = Some (pos, x).
Proof.
  intros r rest pos prev x H. destruct rest; simpl; rewrite H; reflexivity.
Qed.

(** *** The cut at a function word, applied twice *)

Lemma cut_at_function_word_idem : forall paragraph : str,
  cut_at_function_word (cut_at_function_word paragraph)
  = cut_at_function_word paragraph.
Proof.
  intro p. unfold cut_at_function_word at 2 3.
  destruct (re_search function_word_re p) as [[start st1] |] eqn:S.
  2: { unfold cut_at_function_word. rewrite S. reflexivity. }
  unfold re_search in S. apply search_from_spec in S.
  destruct S as [pre [u [prev' [Hp [Hs Hm]]]]]. simpl in Hs. subst start p.
  unfold from. rewrite skipn_app, Nat.sub_diag, skipn_all. simpl.
  apply function_word_inv in Hm.
  destruct Hm as [B [w [st2 [Hw [E B2]]]]].
  destruct (@function_words_alpha w Hw) as [Aw Nw].
  destruct w as [|x w]; [now elim Nw |].
  assert (Ax : isalpha x = true)
    by (simpl in Aw; apply andb_true_iff in Aw; tauto).
  destruct (@eat_first_alpha x w _ _ Ax E) as [c [tl [R Hc]]]. simpl in R. subst u.
  assert (St : strip (c :: tl) = c :: rstrip tl).
  { unfold strip. simpl. rewrite (@alpha_not_space c Hc).
    apply rstrip_cons. apply alpha_not_space. exact Hc. }
  destruct (@eat_rstrip (x :: w) Aw _ _ E 0 None None) as [st3 [E3 [R3 P3]]].
  destruct (P3 Nw) as [P3a P3b]. simpl in E3.
  rewrite (@rstrip_cons c tl (@alpha_not_space c Hc)) in E3.
  assert (B0 : at_boundary (MState 0 None (c :: rstrip tl) None) = true).
  { unfold at_boundary, word_before, word_after. simpl. apply alpha_word. exact Hc. }
  assert (B3 : at_boundary st3 = true).
  { unfold at_boundary in *. unfold word_before in *. rewrite P3a.
    unfold word_before in P3b. rewrite P3b in *. simpl in B2.
    apply negb_true_iff in B2. simpl. apply negb_true_iff.
    unfold word_after in *. rewrite R3.
    destruct (m_rest st2) as [|d t]; [reflexivity |].
    destruct (rstrip_head d t) as [Z | [t' Z]]; rewrite Z; [reflexivity | exact B2]. }
  destruct (@function_word_some _ _ _ B0 Hw E3 B3) as [y Hy].
  unfold cut_at_function_word. rewrite St. unfold re_search.
  rewrite (@search_from_hit _ _ _ _ _ Hy). unfold from. simpl skipn.
  rewrite <- St. apply strip_idem.
Qed.

(** C2, as stated, fails: with the author extracted from the sample
    story, the first removal strips the author line and the second one
    cuts what is left at its first function word. *)
Lemma removal_not_idempotent : ~ removal_idempotent.
Proof.
  intro H. specialize (H sample_author_story sample_author_paragraph).
  assert (A : _extract_author_from_body sample_author_story = py "Ade Ojo")
    by (vm_compute; reflexivity).
  rewrite A in H.
  assert (N : py "Ade Ojo" <> []) by discriminate.
  specialize (H N). clear A N. vm_compute in H. discriminate H.
Qed.

Example removal_twice :
  _remove_exact_author_from_paragraph sample_author_paragraph (py "Ade Ojo")
  = py "Governor Sanwo-Olu has approved the budget" /\
  _remove_exact_author_from_paragraph
    (py "Governor Sanwo-Olu has approved the budget") (py "Ade Ojo")
  = py "the budget".
Proof. split; vm_compute; reflexivity. Qed.

(** *** Paragraphs that the removal patterns leave alone *)

Lemma eat_starts : forall (a : str) (st : mstate),
  starts_with_nocase a (m_rest st) = false -> eat true a st = None.
Proof.
  induction a as [|x a IH]; intros st H; [discriminate |].
  cbn [eat]. simpl in H. destruct (m_rest st) as [|c tl]; [reflexivity |].
  destruct (fold_case true (Ascii.eqb x) c); [| reflexivity].
  apply IH. exact H.
Qed.

(** A pattern [^author...] matches neither away from the start nor on
    a text that does not begin with the author. *)
Lemma anchored_author_no_match : forall (a : str) (more : regex) (st : mstate)
  (k : mstate -> option mstate),
  m_pos st <> 0 \/ starts_with_nocase a (m_rest st) = false ->
  rmatch (Seq Bol (Seq (escape true a) more)) st k = None.
Proof.
  intros a more st k H. cbn [rmatch].
  destruct (m_pos st =? 0) eqn:P; [| reflexivity].
  apply Nat.eqb_eq in P. destruct H as [H | H]; [contradiction |].
  unfold escape. rewrite rmatch_lits, (@eat_starts a st H). reflexivity.
Qed.

Lemma scan_anchored_author : forall (a : str) (more : regex) (fuel : nat) (st : mstate),
  m_pos st <> 0 \/ starts_with_nocase a (m_rest st) = false ->
  concat (map snd (filter (fun p => negb (fst p))
                          (scan fuel (Seq Bol (Seq (escape true a) more)) st)))
  = firstn fuel (m_rest st).
Proof.
  intros a more fuel. induction fuel as [|fuel IH]; intros st H; [reflexivity |].
  cbn [scan]. rewrite anchored_author_no_match by exact H.
  destruct (m_rest st) as [|c tl] eqn:R; [reflexivity |].
  cbn [filter fst snd negb map concat app firstn]. f_equal.
  rewrite IH; [reflexivity |]. left. simpl. discriminate.
Qed.

Lemma sub_anchored_author : forall (a : str) (more : regex) (p : str),
  starts_with_nocase a p = false ->
  re_sub_empty (Seq Bol (Seq (escape true a) more)) p = p.
Proof.
  intros a more p H. unfold re_sub_empty, pieces.
  rewrite scan_anchored_author by (right; exact H).
  simpl m_rest. apply firstn_all2. lia.
Qed.

(** A stripped paragraph that does not begin with the author is left
    unchanged by the four removal patterns. *)
Lemma first_removal_none : forall a p : str,
  strip p = p -> starts_with_nocase a p = false ->
  first_removal (removal_patterns a) p = None.
Proof.
  intros a p Hs Ha. unfold removal_patterns. cbn [seqs first_removal].
  rewrite !sub_anchored_author by exact Ha.
  rewrite Hs, eqb_refl. reflexivity.
Qed.

Lemma cut_at_function_word_stripped : forall p : str,
  strip p = p -> strip (cut_at_function_word p) = cut_at_function_word p.
Proof.
  intros p H. unfold cut_at_function_word.
  destruct (re_search function_word_re p) as [[start st] |]; [apply strip_idem | exact H].
Qed.

(** C2, amended: author removal is idempotent where the function-word
    rule applies.  For a non-empty author and a paragraph without
    surrounding white space, when neither the paragraph nor the cleaned
    text begins with the author (letter case set aside), removing the
    author from the cleaned text returns the cleaned text. *)
Theorem removal_idempotent_after_fallback : forall author paragraph : str,
  author <> [] ->
  strip paragraph = paragraph ->
  starts_with_nocase author paragraph = false ->
  starts_with_nocase author
    (_remove_exact_author_from_paragraph paragraph author) = false ->
  _remove_exact_author_from_paragraph
    (_remove_exact_author_from_paragraph paragraph author) author
  = _remove_exact_author_from_paragraph paragraph author.
Proof.
  intros author paragraph Ha Hs H1 H2.
  assert (R : forall t : str,
             first_removal (removal_patterns author) t = None ->
             _remove_exact_author_from_paragraph t author = cut_at_function_word t).
  { intros t Ht. unfold _remove_exact_author_from_paragraph.
    destruct author as [|c a]; [now elim Ha |].
    rewrite Ht, eqb_refl. reflexivity. }
  pose proof (R _ (@first_removal_none author paragraph Hs H1)) as E1.
  rewrite E1 in *.
  rewrite (R _ (@first_removal_none author _
                  (@cut_at_function_word_stripped paragraph Hs) H2)).
  apply cut_at_function_word_idem.
Qed.

Lemma removal_idempotent_after_fallback_witness :
  _remove_exact_author_from_paragraph
    (_remove_exact_author_from_paragraph
       (py "Governor Sanwo-Olu has approved the budget") (py "Ade Ojo"))
    (py "Ade Ojo")
  = _remove_exact_author_from_paragraph
      (py "Governor Sanwo-Olu has approved the budget") (py "Ade Ojo").
Proof.
  apply removal_idempotent_after_fallback.
  - discriminate.
  - vm_compute. reflexivity.
  - vm_compute. reflexivity.
  - vm_compute. reflexivity.
Defined.

(* ================================================================= *)
(** * Further results *)

(** ** Lists and joins *)








(* ================================================================= *)
(** ** The story parser, continued *)

Lemma run_text_stripped : forall (child : Element) (t : str),
  run_text child = Some t -> t <> [] /\ strip t = t.
Proof.
  intros child t H. unfold run_text in H.
  destruct (Str.eqb (tag child) T_Content); [| discriminate].
  destruct (truthy_text (ET.text child)) as [u |]; [| discriminate].
  destruct (strip u) as [|c s] eqn:E; [discriminate |].
  injection H as <-. split; [discriminate |]. rewrite <- E. apply strip_idem.
Qed.








Example parsed_two_paragraphs :
  paragraphs (parsed x_two_paragraphs_file)
  = [py "Budget"; py "approved at last"; py "The council voted."] /\
  map paragraph_range_index (content_elements (parsed x_two_paragraphs_file))
  = [1; 1; 1; 2].
Proof. split; vm_compute; reflexivity. Qed.









(* ================================================================= *)
(** ** Category markers, continued *)









(* ================================================================= *)
(** ** The document pass, continued *)














(* ================================================================= *)
(** ** The story classifier, continued *)












(* ================================================================= *)
(** ** The matcher: what a match consumes *)







(* ================================================================= *)
(** ** Author removal, continued *)
















(* ================================================================= *)
(** ** Author tests *)










